(** * varnish_exporter: the metric generator and the revision resolver

    A shallow embedding of [main.go]: [formatLabel], [genMetrics] and
    [parseVCLList], the collection cycle around them ([execute], [listVCL],
    [collectStats], [collectMetrics]), and the parts of the Go runtime and
    of the [strings] and [fastjson] packages they call. *)

From Stdlib Require Import ZArith Ascii DecimalString.
From Stdlib Require DecimalPos DecimalZ.
From stdpp Require Import gmap strings list fin_maps.

(** The two bytes that string literals cannot hold. *)
Definition dquote : string := String "034"%char EmptyString.
Definition LF : string := String "010"%char EmptyString.

(** ** The Go runtime: run-time panics *)

Module Go.

(** The two run-time errors this program can raise. *)
Inductive runtime_error : Type :=
| IndexOutOfRange (index len : nat)
| SliceBoundsOutOfRange (low len : nat).

(** A Go computation either completes with a value or panics. *)
Inductive go (A : Type) : Type :=
| Done (a : A)
| Panics (e : runtime_error).
Arguments Done {A} a.
Arguments Panics {A} e.

Definition bind {A B : Type} (m : go A) (k : A → go B) : go B :=
  match m with
  | Done a => k a
  | Panics e => Panics e
  end.

(** [l[i]] *)
Definition index {A : Type} (l : list A) (i : nat) : go A :=
  match l !! i with
  | Some x => Done x
  | None => Panics (IndexOutOfRange i (length l))
  end.

(** [l[low:]] *)
Definition slice_from {A : Type} (l : list A) (low : nat) : go (list A) :=
  if decide (low ≤ length l)%nat then Done (drop low l)
  else Panics (SliceBoundsOutOfRange low (length l)).

(** [for ... range l] with a body that may panic, threading the variables
    the body assigns to. *)
Fixpoint for_range {A S : Type} (body : S → A → go S) (l : list A) (s : S)
  : go S :=
  match l with
  | [] => Done s
  | x :: l' => bind (body s x) (for_range body l')
  end.

(** [fmt.Sprintf("%d", n)] *)
Definition format_int (n : Z) : string := NilZero.string_of_int (Z.to_int n).

Definition min_int64 : Z := - 2 ^ 63.
Definition max_int64 : Z := 2 ^ 63 - 1.

End Go.

Import Go.

#[global] Instance go_ret : MRet go := @Done.
#[global] Instance go_bind : MBind go := λ A B k m, Go.bind m k.

(** ** Package [strings] *)

Module GoStrings.

(** [strings.Split(s, sep)] for a one-byte separator: the pieces between
    the occurrences of [sep], in order; never the empty list. *)
Fixpoint Split (s : string) (sep : ascii) : list string :=
  match s with
  | "" => [""]
  | String c r =>
      if decide (c = sep) then "" :: Split r sep
      else match Split r sep with
           | piece :: pieces => String c piece :: pieces
           | [] => [String c ""]
           end
  end.

(** [strings.ToLower] on one ASCII byte. *)
Definition lower_byte (c : ascii) : ascii :=
  let n := nat_of_ascii c in
  if (65 <=? n)%nat && (n <=? 90)%nat then ascii_of_nat (n + 32) else c.

(** [strings.ToLower] restricted to ASCII text. *)
Fixpoint ToLower_ascii (s : string) : string :=
  match s with
  | "" => ""
  | String c r => String (lower_byte c) (ToLower_ascii r)
  end.

End GoStrings.

(** ** Package [fastjson]: decoded values and their accessors *)

Module fastjson.

Inductive Type_ : Type :=
| TypeNull | TypeObject | TypeArray | TypeString | TypeNumber
| TypeTrue | TypeFalse.

(** A decoded JSON value.  A number keeps the text it was written with; an
    object keeps its entries in document order, duplicates included. *)
#[warning="-register-all"]
Inductive Value : Type :=
| Null
| Object (kvs : list (string * Value))
| Array (a : list Value)
| String_ (s : string)
| Number (s : string)
| True_
| False_.

Definition type_of (v : Value) : Type_ :=
  match v with
  | Null => TypeNull
  | Object _ => TypeObject
  | Array _ => TypeArray
  | String_ _ => TypeString
  | Number _ => TypeNumber
  | True_ => TypeTrue
  | False_ => TypeFalse
  end.

(** [Object.Get]: the value of the first entry with the given key. *)
Fixpoint Object_Get (kvs : list (string * Value)) (key : string)
  : option Value :=
  match kvs with
  | [] => None
  | (k, v) :: kvs' => if decide (k = key) then Some v else Object_Get kvs' key
  end.

(** [Value.Get(key)] with one key that is not a decimal array index. *)
Definition Get (v : Value) (key : string) : option Value :=
  match v with
  | Object kvs => Object_Get kvs key
  | _ => None
  end.

(** [Value.GetStringBytes(key)]: [None] is Go's nil slice. *)
Definition GetStringBytes (v : Value) (key : string) : option string :=
  match Get v key with
  | Some (String_ s) => Some s
  | _ => None
  end.

Definition digit_value (c : ascii) : option Z :=
  let n := nat_of_ascii c in
  if (48 <=? n)%nat && (n <=? 57)%nat then Some (Z.of_nat (n - 48)) else None.

(** The value of a non-empty run of decimal digits. *)
Fixpoint digits_value (acc : Z) (s : string) : option Z :=
  match s with
  | "" => Some acc
  | String c r =>
      match digit_value c with
      | Some d => digits_value (acc * 10 + d) r
      | None => None
      end
  end.

(** [fastfloat.ParseInt64BestEffort]: the int64 a text of the form
    [-?[0-9]+] denotes; 0 when the text has another form or the number
    does not fit. *)
Definition ParseInt64BestEffort (s : string) : Z :=
  let '(minus, digits) :=
    match s with
    | String "-" r => (true, r)
    | _ => (false, s)
    end in
  match digits with
  | "" => 0
  | _ =>
      match digits_value 0 digits with
      | Some d =>
          let n := if minus : bool then - d else d in
          if (min_int64 <=? n) && (n <=? max_int64) then n else 0
      | None => 0
      end
  end%Z.

(** [Value.GetInt(key)] on a platform whose [int] has 64 bits. *)
Definition GetInt (v : Value) (key : string) : Z :=
  match Get v key with
  | Some (Number s) => ParseInt64BestEffort s
  | _ => 0%Z
  end.

(** The errors the package returns. *)
Inductive error : Type :=
| ParseError (msg : string)
| NotAnArray (found : Type_)
| ErrorsNew (msg : string).

(** [Value.Array()] *)
Definition Value_Array (v : Value) : list Value + error :=
  match v with
  | Array a => inl a
  | _ => inr (NotAnArray (type_of v))
  end.

End fastjson.

Import fastjson.

(** [string(b)] for a byte slice [b]: the nil slice converts to [""]. *)
Definition string_of_bytes (b : option string) : string := default "" b.

(** ** [main.go] *)

Record Metric : Type := newMetric {
  Category : string;
  Name : string;
  Labels : gmap string string;
  Value_ : Value;
}.

Definition newLabel (name value : string) : gmap string string :=
  {[ name := value ]}.

Definition emptyLabel : gmap string string := ∅.

(** The body of the loop of [formatLabel]: one entry written to buffer [w]. *)
Definition formatLabel_entry (w : string) (entry : string * string) : string :=
  let '(name, value) := entry in
  let w := if decide (String.length w = 0) then w +:+ "{" else w +:+ "," in
  let w := w +:+ name in
  let w := w +:+ "=" +:+ dquote in
  let w := w +:+ value in
  w +:+ dquote.

(** [formatLabel] when [range labels] visits the entries in the given order.
    Go leaves the order in which [range] visits a map unspecified. *)
Definition formatLabel_from (order : list (string * string)) : string :=
  let w := foldl formatLabel_entry "" order in
  if decide (0 < String.length w)%nat then w +:+ "}" else w.

(** [formatLabel] with the entries visited in the order of [map_to_list]. *)
Definition formatLabel (labels : gmap string string) : string :=
  formatLabel_from (map_to_list labels).

(** The variables the callback of [genMetrics] assigns to, and what it has
    written to standard output and to the log. *)
Record visitor : Type := Visitor {
  activeVCL : string;
  metrics : list Metric;
  printed : list string;
  logged : list (string * Value);
}.

Definition set_activeVCL (a : string) (st : visitor) : visitor :=
  Visitor a (metrics st) (printed st) (logged st).

Definition append_metric (m : Metric) (st : visitor) : visitor :=
  Visitor (activeVCL st) (metrics st ++ [m]) (printed st) (logged st).

Definition fmt_Println (line : string) (st : visitor) : visitor :=
  Visitor (activeVCL st) (metrics st) (printed st ++ [line]) (logged st).

Definition log_Println (key : string) (val : Value) (st : visitor) : visitor :=
  Visitor (activeVCL st) (metrics st) (printed st) (logged st ++ [(key, val)]).

Section Exporter.

(** [strings.ToLower], which also maps letters outside ASCII. *)
Variable ToLower : string → string.

(** The callback [genMetrics] passes to [Object.Visit]. *)
Definition visit (st : visitor) (kv : string * Value) : go visitor :=
  let '(key, val) := kv in
  if decide (key = "version") then mret st else
  let splits := GoStrings.Split key "." in
  if decide (length splits < 2)%nat then mret st else
  prefix ← index splits 0;
  if decide (prefix = "VBE") then
    let st := fmt_Println key st in
    vclVersion ← index splits 1;
    let st := if decide (activeVCL st = "") then set_activeVCL vclVersion st
              else st in
    if decide (vclVersion ≠ activeVCL st) then mret st else
    backend ← index splits 2;
    name ← index splits 3;
    mret (append_metric
            (newMetric "backend" name (newLabel "name" backend) val) st)
  else if decide (prefix = "MEMPOOL") then
    pool ← index splits 1;
    name ← index splits 2;
    mret (append_metric (newMetric "mempool" name (newLabel "name" pool) val) st)
  else if decide (prefix = "SMA") then
    typ ← index splits 1;
    let typ := ToLower typ in
    name ← index splits 2;
    mret (append_metric (newMetric "sma" name (newLabel "type" typ) val) st)
  else if decide (prefix = "LCK") then
    target ← index splits 1;
    name ← index splits 2;
    mret (append_metric (newMetric "lock" name (newLabel "target" target) val) st)
  else if decide (prefix = "SMF") then
    typ ← index splits 1;
    name ← index splits 2;
    mret (append_metric (newMetric "smf" name (newLabel "type" typ) val) st)
  else if decide (prefix = "MAIN") then
    name ← index splits 1;
    mret (append_metric (newMetric "main" name emptyLabel val) st)
  else if decide (prefix = "MGT") then
    name ← index splits 1;
    mret (append_metric (newMetric "mgt" name emptyLabel val) st)
  else
    mret (log_Println key val st).

(** [value.Visit(...)]: the first half of [genMetrics]. *)
Definition collect (value : list (string * Value)) (activeVCL : string)
  : go visitor :=
  for_range visit value (Visitor activeVCL [] [] []).

(** The body of the rendering loop: one metric written to buffer [w]. *)
Definition write_metric (w : string) (m : Metric) : string :=
  let desc := string_of_bytes (GetStringBytes (Value_ m) "description") in
  let flag_ := string_of_bytes (GetStringBytes (Value_ m) "flag") in
  let v := GetInt (Value_ m) "value" in
  let type_ := if decide (flag_ = "g") then "gauge" else "counter" in
  let name := "varnish_" +:+ Category m +:+ "_" +:+ Name m in
  let w := w +:+ ("# HELP " +:+ name +:+ " " +:+ desc +:+ LF) in
  let w := w +:+ ("# TYPE " +:+ name +:+ " " +:+ type_ +:+ LF) in
  w +:+ (name +:+ formatLabel (Labels m) +:+ " " +:+ format_int v +:+ LF).

(** The three writes that end [genMetrics]. *)
Definition write_active_vcl (w : string) (activeVCL : string) : string :=
  let w := w +:+ ("# HELP varnish_active_vcl vcl version" +:+ LF) in
  let w := w +:+ ("# TYPE varnish_active_vcl gauge" +:+ LF) in
  w +:+ ("varnish_active_vcl{version=" +:+ dquote +:+ activeVCL +:+ dquote
         +:+ "} 1" +:+ LF).

Definition genMetrics (value : list (string * Value)) (activeVCL0 : string)
  : go string :=
  st ← collect value activeVCL0;
  let w := foldl write_metric "" (metrics st) in
  mret (write_active_vcl w (activeVCL st)).

End Exporter.

Section Resolver.

(** [fastjson.Parse]: the decoder, which returns a value or an error. *)
Variable Parse : string → Value + error.

(** The loop of [parseVCLList] over [arr[3:]]. *)
Fixpoint parseVCLList_loop (l : list Value) : string * option error :=
  match l with
  | [] => ("", Some (ErrorsNew "No active ACL found"))
  | value :: l' =>
      let st := string_of_bytes (GetStringBytes value "status") in
      if decide (st = "active") then
        (string_of_bytes (GetStringBytes value "name"), None)
      else parseVCLList_loop l'
  end.

Definition parseVCLList (input : string) : go (string * option error) :=
  match Parse input with
  | inr err => mret ("", Some err)
  | inl val =>
      match Value_Array val with
      | inr err => mret ("", Some err)
      | inl arr =>
          rest ← slice_from arr 3;
          mret (parseVCLList_loop rest)
      end
  end.

End Resolver.

(** ** The classification rules, as the specification words them *)

(** The closed vocabulary of first segments. *)
Definition vocabulary : list string :=
  ["VBE"; "MEMPOOL"; "SMA"; "LCK"; "SMF"; "MAIN"; "MGT"].

(** The dot-path of a key. *)
Definition dot_path (key : string) : list string := GoStrings.Split key ".".

(** A key the generator classifies: not the reserved key, at least two
    segments, and a first segment of the vocabulary. *)
Definition recognized (key : string) : bool :=
  bool_decide (key ≠ "version")
  && bool_decide (2 ≤ length (dot_path key))%nat
  && bool_decide (hd "" (dot_path key) ∈ vocabulary).

(** The revision id of a key: the second segment of a VBE key. *)
Definition revision_id (key : string) : option string :=
  if recognized key && bool_decide (hd "" (dot_path key) = "VBE")
  then dot_path key !! 1%nat else None.

(** The active revision once a key has been visited: a VBE key sets it when
    it is still unset, that is, empty. *)
Definition adopt (active key : string) : string :=
  match revision_id key with
  | Some r => if decide (active = "") then r else active
  | None => active
  end.

(** Whether a key yields a Metric, given the active revision in force once
    the key has been visited. *)
Definition kept (active key : string) : bool :=
  recognized key
  && match revision_id key with
     | Some r => bool_decide (r = active)
     | None => true
     end.

(** The keys that yield a Metric, in visiting order. *)
Fixpoint retained (active : string) (obj : list (string * Value))
  : list (string * Value) :=
  match obj with
  | [] => []
  | (key, val) :: rest =>
      let active := adopt active key in
      (if kept active key then [(key, val)] else []) ++ retained active rest
  end.

(** The active revision at the end of the pass. *)
Definition final_revision (active : string) (obj : list (string * Value))
  : string :=
  foldl adopt active obj.*1.

(** A key that leaves an unset active revision unset: it is no VBE key, or
    its revision id is empty. *)
Definition adopts_nothing (entry : string * Value) : Prop :=
  revision_id entry.1 = None ∨ revision_id entry.1 = Some "".

Section Table.

Variable ToLower : string → string.

(** The classification table: category, name and labels of a dot-path. *)
Definition table_row (path : list string)
  : option (string * string * gmap string string) :=
  match path with
  | first :: second :: rest =>
      if decide (first = "VBE") then
        match rest with
        | third :: fourth :: _ =>
            Some ("backend", fourth, {[ "name" := third ]})
        | _ => None
        end
      else if decide (first = "MAIN") then Some ("main", second, ∅)
      else if decide (first = "MGT") then Some ("mgt", second, ∅)
      else
        match rest with
        | third :: _ =>
            if decide (first = "MEMPOOL") then
              Some ("mempool", third, {[ "name" := second ]})
            else if decide (first = "SMA") then
              Some ("sma", third, {[ "type" := ToLower second ]})
            else if decide (first = "LCK") then
              Some ("lock", third, {[ "target" := second ]})
            else if decide (first = "SMF") then
              Some ("smf", third, {[ "type" := second ]})
            else None
        | [] => None
        end
  | _ => None
  end.

(** A Metric that follows the table for the entry it comes from. *)
Definition follows_table (entry : string * Value) (m : Metric) : Prop :=
  Value_ m = entry.2
  ∧ table_row (dot_path entry.1) = Some (Category m, Name m, Labels m).

End Table.

(** ** The rendered text, piece by piece *)

(** One rendered entry: [name="value"]. *)
Definition label_pair (entry : string * string) : string :=
  entry.1 +:+ "=" +:+ dquote +:+ entry.2 +:+ dquote.

(** What the loop of [formatLabel] appends after its first entry. *)
Definition more_pairs (l : list (string * string)) : string :=
  foldr (λ e acc, "," +:+ label_pair e +:+ acc) "" l.

(** The three lines of the synthetic metric that ends the output. *)
Definition active_vcl_block (version : string) : string :=
  "# HELP varnish_active_vcl vcl version" +:+ LF
  +:+ "# TYPE varnish_active_vcl gauge" +:+ LF
  +:+ "varnish_active_vcl{version=" +:+ dquote +:+ version +:+ dquote
  +:+ "} 1" +:+ LF.

Definition full_name (m : Metric) : string :=
  "varnish_" +:+ Category m +:+ "_" +:+ Name m.

Definition description (node : Value) : string :=
  string_of_bytes (GetStringBytes node "description").

(** The type a node's [flag] field selects. *)
Definition type_of_flag (node : Value) : string :=
  match Get node "flag" with
  | Some (String_ s) => if decide (s = "g") then "gauge" else "counter"
  | _ => "counter"
  end.

Definition help_line (m : Metric) : string :=
  "# HELP " +:+ full_name m +:+ " " +:+ description (Value_ m).

Definition type_line (m : Metric) : string :=
  "# TYPE " +:+ full_name m +:+ " " +:+ type_of_flag (Value_ m).

Definition sample_line (m : Metric) : string :=
  full_name m +:+ formatLabel (Labels m) +:+ " "
  +:+ format_int (GetInt (Value_ m) "value").

Definition metric_lines (m : Metric) : list string :=
  [help_line m; type_line m; sample_line m].

(** Lines joined into text, each ended by a line feed. *)
Definition unlines (ls : list string) : string :=
  foldr (λ l acc, l +:+ LF +:+ acc) "" ls.

(** ** Sample inputs *)

(** The decoded document
    [{"version":"1","MAIN.uptime":{"description":"d","flag":"c","value":42}}]. *)
Definition uptime_document : list (string * Value) :=
  [ ("version", String_ "1");
    ("MAIN.uptime",
     Object [("description", String_ "d"); ("flag", String_ "c");
             ("value", Number "42")]) ].

(** Backend counters of two revisions, [a] before [b]. *)
Definition two_revisions : list (string * Value) :=
  [ ("VBE.a.be1.conn", Object [("value", Number "1")]);
    ("VBE.b.be2.conn", Object [("value", Number "2")]) ].

(** A JSON string literal. *)
Definition quoted (s : string) : string := dquote +:+ s +:+ dquote.

(** A revision list with one record, after the three leading entries. *)
Definition vcl_list_text (status name : string) : string :=
  "[0,[],1,{" +:+ quoted "status" +:+ ":" +:+ quoted status +:+ ","
  +:+ quoted "name" +:+ ":" +:+ quoted name +:+ "}]".

Definition vcl_list_value (status name : string) : Value :=
  Array [Number "0"; Array []; Number "1";
         Object [("status", String_ status); ("name", String_ name)]].

(** A decoder that knows four texts, standing in for [fastjson.Parse]. *)
Definition sample_Parse (input : string) : Value + error :=
  if decide (input = "[]") then inl (Array [])
  else if decide (input = vcl_list_text "active" "boot") then
    inl (vcl_list_value "active" "boot")
  else if decide (input = vcl_list_text "available" "cold") then
    inl (vcl_list_value "available" "cold")
  else if decide (input = "{}") then inl (Object [])
  else inr (ParseError "cannot parse JSON").

(** How often a byte occurs in a text. *)
Fixpoint count_byte (c : ascii) (s : string) : nat :=
  match s with
  | "" => 0
  | String c' r => (if decide (c' = c) then 1 else 0) + count_byte c r
  end.

(** Text without a line feed. *)
Fixpoint LF_free (s : string) : bool :=
  match s with
  | "" => true
  | String c r => bool_decide (c ≠ "010"%char) && LF_free r
  end.

(** The three lines of the synthetic metric, without their line feeds. *)
Definition active_vcl_lines (version : string) : list string :=
  [ "# HELP varnish_active_vcl vcl version";
    "# TYPE varnish_active_vcl gauge";
    "varnish_active_vcl{version=" +:+ dquote +:+ version +:+ dquote +:+ "} 1" ].

(** One counter whose description spells out the synthetic metric. *)
Definition injected_document : list (string * Value) :=
  [ ("MAIN.uptime",
     Object [("description",
              String_ ("d" +:+ LF +:+ active_vcl_block "" +:+ "# end"))]) ].

(** ** The collection cycle *)

(** [Type.String()] *)
Definition Type_String (t : Type_) : string :=
  match t with
  | TypeNull => "null"
  | TypeObject => "object"
  | TypeArray => "array"
  | TypeString => "string"
  | TypeNumber => "number"
  | TypeTrue => "true"
  | TypeFalse => "false"
  end.

(** [Value.Object()] *)
Definition Value_Object (v : Value) : list (string * Value) + error :=
  match v with
  | Object kvs => inl kvs
  | _ =>
      inr (ErrorsNew ("value doesn't contain object; it contains "
                      +:+ Type_String (type_of v)))
  end.

(** A command with its parameters, as [execute] receives them. *)
Definition call : Type := string * list string.

Definition varnishadm_call : call := ("varnishadm", ["vcl.list"; "-j"]).
Definition varnishstat_call : call := ("varnishstat", ["-j"; "-t"; "0"]).

Section Collector.

Variable ToLower : string → string.
Variable Parse : string → Value + error.

(** What running a command gives: the text captured from its two output
  streams and the error of [cmd.Run].  One cycle runs a command once at
  most, so a function of the command covers every behaviour of a cycle. *)
Variable Run : string → list string → string * option error.

(** [execute]: the result, and the command that has been run. *)
Definition execute (command : string) (params : list string)
: (string * option error) * list call :=
(Run command params, [(command, params)]).

(** [listVCL]: the result, and the commands that have been run. *)
Definition listVCL (noAdmin : bool)
: go (string * option error) * list call :=
if noAdmin then (mret ("", None), [])
else
  let '((out, err), calls) := execute "varnishadm" ["vcl.list"; "-j"] in
  match err with
  | Some e => (mret ("", Some e), calls)
  | None => (parseVCLList Parse out, calls)
  end.

(** [collectStats]: the counters object or an error, and the commands that
  have been run. *)
Definition collectStats : (list (string * Value) + error) * list call :=
let '((out, err), calls) := execute "varnishstat" ["-j"; "-t"; "0"] in
match err with
| Some e => (inr e, calls)
| None =>
    match Parse out with
    | inr e => (inr e, calls)
    | inl val => (Value_Object val, calls)
    end
end.

(** [collectMetrics]: the result, and the commands that have been run. *)
Definition collectMetrics (noAdmin : bool)
: go (string * option error) * list call :=
let '(listed, calls1) := listVCL noAdmin in
match listed with
| Panics e => (Panics e, calls1)
| Done (_, Some err) => (mret ("", Some err), calls1)
| Done (activeVCL, None) =>
    let '(stats, calls2) := collectStats in
    match stats with
    | inr err => (mret ("", Some err), calls1 ++ calls2)
    | inl stats =>
        (out ← genMetrics ToLower stats activeVCL; mret (out, None),
         calls1 ++ calls2)
    end
end.

End Collector.

(** A decoder given by a table: the texts it decodes, each with its
    value. *)
Fixpoint decode_with (table : list (string * Value)) (input : string)
  : Value + error :=
  match table with
  | [] => inr (ParseError "cannot parse JSON")
  | (text, val) :: table' =>
      if decide (text = input) then inl val else decode_with table' input
  end.

(** A run given by a table: the commands that succeed, each with the text
    it prints; any other command fails. *)
Fixpoint run_with (table : list (string * string)) (command : string)
    (params : list string) : string * option error :=
  match table with
  | [] => ("", Some (ErrorsNew "executable file not found"))
  | (name, out) :: table' =>
      if decide (name = command) then (out, None)
      else run_with table' command params
  end.

(** ** What a pass leaves behind *)

(** The segments the callback reads of a path with the given first
    segment. *)
Definition segments_read (first : string) : nat :=
  if decide (first = "VBE") then 4
  else if decide (first = "MAIN") then 2
  else if decide (first = "MGT") then 2
  else 3.

(** A key with as many segments as the callback reads of it. *)
Definition long_enough (key : string) : Prop :=
  (segments_read (hd "" (dot_path key)) ≤ length (dot_path key))%nat.

(** A state with what a later stretch of the pass has added to it. *)
Definition extend (st added : visitor) : visitor :=
  Visitor (activeVCL added) (metrics st ++ metrics added)
    (printed st ++ printed added) (logged st ++ logged added).

(** A VBE key, of whatever revision. *)
Definition is_VBE_key (key : string) : bool :=
  bool_decide (is_Some (revision_id key)).

(** A key with two segments or more whose first segment is not of the
    vocabulary. *)
Definition unknown_key (key : string) : bool :=
  bool_decide (key ≠ "version")
  && bool_decide (2 ≤ length (dot_path key))%nat
  && negb (bool_decide (hd "" (dot_path key) ∈ vocabulary)).

(** Two passes that agree on the active revision and on the Metrics, or
    panic alike. *)
Definition same_outcome (r1 r2 : go visitor) : Prop :=
  match r1, r2 with
  | Done s1, Done s2 => activeVCL s1 = activeVCL s2 ∧ metrics s1 = metrics s2
  | Panics e1, Panics e2 => e1 = e2
  | _, _ => False
  end.

(** A record of the revision list with the status [active]. *)
Definition is_active (record : Value) : Prop :=
  GetStringBytes record "status" = Some "active".

(** A revision listing that has given a revision and no error. *)
Definition listed (r : go (string * option error)) : bool :=
  match r with
  | Done (_, None) => true
  | _ => false
  end.

(** The number a run of decimal digits denotes, after the digits read so
    far. *)
Fixpoint uint_value (acc : Z) (d : Decimal.uint) : Z :=
  match d with
  | Decimal.Nil => acc
  | Decimal.D0 d => uint_value (acc * 10 + 0) d
  | Decimal.D1 d => uint_value (acc * 10 + 1) d
  | Decimal.D2 d => uint_value (acc * 10 + 2) d
  | Decimal.D3 d => uint_value (acc * 10 + 3) d
  | Decimal.D4 d => uint_value (acc * 10 + 4) d
  | Decimal.D5 d => uint_value (acc * 10 + 5) d
  | Decimal.D6 d => uint_value (acc * 10 + 6) d
  | Decimal.D7 d => uint_value (acc * 10 + 7) d
  | Decimal.D8 d => uint_value (acc * 10 + 8) d
  | Decimal.D9 d => uint_value (acc * 10 + 9) d
  end.

(** ** Sample cycles *)

(** The counters text with one backend counter of the revision [boot]. *)
Definition counters_text : string :=
  "{" +:+ quoted "VBE.boot.be1.conn" +:+ ":null}".

(** A revision list whose one record is active and has no name. *)
Definition nameless_list_text : string :=
  "[0,[],1,{" +:+ quoted "status" +:+ ":" +:+ quoted "active" +:+ "}]".

Definition sample_decoder : string → Value + error :=
  decode_with
    [ (vcl_list_text "active" "boot", vcl_list_value "active" "boot");
      (nameless_list_text,
       Array [Number "0"; Array []; Number "1";
              Object [("status", String_ "active")]]);
      ("[]", Array []);
      (counters_text, Object [("VBE.boot.be1.conn", Null)]) ].

(** Both commands succeed: the revision [boot] is active. *)
Definition good_Run : string → list string → string * option error :=
  run_with [("varnishadm", vcl_list_text "active" "boot");
            ("varnishstat", counters_text)].

(** The listing has an active record without a name. *)
Definition nameless_Run : string → list string → string * option error :=
  run_with [("varnishadm", nameless_list_text); ("varnishstat", counters_text)].


(** ** Text *)

Lemma app_cons (c : ascii) (s t : string) :
  String c s +:+ t = String c (s +:+ t).
Proof. reflexivity. Qed.

Lemma app_empty_l (s : string) : "" +:+ s = s.
Proof. reflexivity. Qed.

Lemma app_empty_r (s : string) : s +:+ "" = s.
Proof. induction s as [|c s IH]; [done | by rewrite app_cons, IH]. Qed.

Lemma app_assoc_s (s1 s2 s3 : string) : (s1 +:+ s2) +:+ s3 = s1 +:+ s2 +:+ s3.
Proof. induction s1 as [|c s1 IH]; [done | by rewrite !app_cons, IH]. Qed.

Lemma length_app_s (s1 s2 : string) :
  String.length (s1 +:+ s2) = (String.length s1 + String.length s2)%nat.
Proof.
  induction s1 as [|c s1 IH]; [done|]. rewrite app_cons. cbn. by rewrite IH.
Qed.

(** ** [strings.Split] *)

Lemma Split_length (s : string) (sep : ascii) :
  length (GoStrings.Split s sep) = S (count_byte sep s).
Proof.
  induction s as [|c s IH]; cbn [GoStrings.Split count_byte]; [done|].
  destruct (decide (c = sep)); cbn [length]; [by rewrite IH|].
  destruct (GoStrings.Split s sep); cbn [length] in *; lia.
Qed.

(** The pieces, joined by the separator, are the text that was split. *)
Lemma Split_join (s : string) (sep : ascii) :
  String.concat (String sep "") (GoStrings.Split s sep) = s.
Proof.
  induction s as [|c s IH]; cbn [GoStrings.Split]; [done|].
  pose proof (Split_length s sep) as Hlen.
  destruct (decide (c = sep)) as [->|Hc].
  - destruct (GoStrings.Split s sep) as [|piece pieces]; [done|].
    cbn [String.concat] in *. rewrite IH. done.
  - destruct (GoStrings.Split s sep) as [|piece pieces]; [done|].
    cbn [String.concat] in *. destruct pieces; by rewrite <- IH.
Qed.

Example Split_key :
  GoStrings.Split "VBE.boot.default.happy" "." = ["VBE"; "boot"; "default"; "happy"].
Proof. reflexivity. Qed.

Example Split_no_separator : GoStrings.Split "version" "." = ["version"].
Proof. reflexivity. Qed.

Example Split_empty_pieces : GoStrings.Split ".a.." "." = [""; "a"; ""; ""].
Proof. reflexivity. Qed.

Example ParseInt64BestEffort_examples :
  ParseInt64BestEffort "42" = 42%Z ∧ ParseInt64BestEffort "-7" = (-7)%Z
  ∧ ParseInt64BestEffort "1.5" = 0%Z ∧ ParseInt64BestEffort "1e3" = 0%Z
  ∧ ParseInt64BestEffort "9223372036854775807" = max_int64
  ∧ ParseInt64BestEffort "9223372036854775808" = 0%Z.
Proof. repeat split. Qed.

(** ** [formatLabel] *)

Lemma formatLabel_entry_first (entry : string * string) :
  formatLabel_entry "" entry = "{" +:+ label_pair entry.
Proof.
  destruct entry as [name value]. unfold formatLabel_entry, label_pair.
  destruct (decide (String.length "" = 0)) as [_|H0]; [|done].
  cbn [fst snd]. by rewrite !app_assoc_s.
Qed.

Lemma formatLabel_entry_next (w : string) (entry : string * string) :
  (0 < String.length w)%nat →
  formatLabel_entry w entry = w +:+ "," +:+ label_pair entry.
Proof.
  intros Hw. destruct entry as [name value]. unfold formatLabel_entry, label_pair.
  destruct (decide (String.length w = 0)) as [H0|_]; [lia|].
  simpl. by rewrite !app_assoc_s.
Qed.

Lemma foldl_formatLabel_entry (w : string) (l : list (string * string)) :
  (0 < String.length w)%nat →
  foldl formatLabel_entry w l = w +:+ more_pairs l.
Proof.
  revert w. induction l as [|e l IH]; intros w Hw; cbn [foldl more_pairs foldr].
  - by rewrite app_empty_r.
  - rewrite formatLabel_entry_next by done. rewrite IH.
    + by rewrite !app_assoc_s.
    + rewrite length_app_s. lia.
Qed.

Lemma concat_comma (e : string * string) (l : list (string * string)) :
  label_pair e +:+ more_pairs l = String.concat "," (label_pair <$> (e :: l)).
Proof.
  revert e. induction l as [|e' l IH]; intros e.
  - apply app_empty_r.
  - cbn [more_pairs foldr]. fold (more_pairs l). rewrite IH. reflexivity.
Qed.

Lemma formatLabel_from_nil : formatLabel_from [] = "".
Proof. done. Qed.

Lemma formatLabel_from_cons (e : string * string) (l : list (string * string)) :
  formatLabel_from (e :: l)
  = "{" +:+ String.concat "," (label_pair <$> (e :: l)) +:+ "}".
Proof.
  unfold formatLabel_from. cbn [foldl]. rewrite formatLabel_entry_first.
  rewrite foldl_formatLabel_entry by (rewrite length_app_s; cbn; lia).
  destruct (decide _) as [_|Hn].
  - by rewrite <- concat_comma, !app_assoc_s.
  - rewrite !length_app_s in Hn. cbn in Hn. lia.
Qed.

(** C7. [formatLabel] returns the empty string for the empty mapping.  For a
    non-empty mapping, in whatever order [range] visits its entries, it
    returns an opening brace, the entries rendered as [key="value"] and
    separated by commas, one per entry of the mapping, and a closing brace. *)
Theorem formatLabel_spec (labels : gmap string string)
    (order : list (string * string)) :
  order ≡ₚ map_to_list labels →
  (labels = ∅ → formatLabel_from order = "") ∧
  (labels ≠ ∅ →
     formatLabel_from order
     = "{" +:+ String.concat "," (label_pair <$> order) +:+ "}"
     ∧ length order = size labels
     ∧ ∀ k v, (k, v) ∈ order ↔ labels !! k = Some v).
Proof.
  intros Hperm. split.
  - intros ->. rewrite map_to_list_empty in Hperm.
    by apply Permutation_nil_r in Hperm as ->.
  - intros Hne. split; [|split].
    + destruct order as [|e l].
      * symmetry in Hperm. apply Permutation_nil_r in Hperm.
        by apply map_to_list_empty_iff in Hperm.
      * apply formatLabel_from_cons.
    + rewrite Hperm. by rewrite length_map_to_list.
    + intros k v. rewrite Hperm. apply elem_of_map_to_list.
Qed.

Lemma formatLabel_spec_witness :
  let labels : gmap string string := {[ "name" := "be1" ]} in
  [("name", "be1")] ≡ₚ map_to_list labels ∧
  formatLabel_from [("name", "be1")]
  = "{" +:+ String.concat "," (label_pair <$> [("name", "be1")]) +:+ "}".
Proof.
  assert (Hp : [("name", "be1")] ≡ₚ map_to_list ({[ "name" := "be1" ]} : gmap string string)).
  { by rewrite map_to_list_singleton. }
  split; [exact Hp|].
  apply (formatLabel_spec _ _ Hp). apply insert_non_empty.
Defined.
(** ** The visiting pass *)

Lemma in_vocabulary (p : string) :
  p ∈ vocabulary ↔
  p = "VBE" ∨ p = "MEMPOOL" ∨ p = "SMA" ∨ p = "LCK" ∨ p = "SMF" ∨ p = "MAIN"
  ∨ p = "MGT".
Proof. unfold vocabulary. rewrite !elem_of_cons, elem_of_nil. tauto. Qed.

Section Step.
Variable ToLower : string → string.

Lemma visit_Done (st st' : visitor) (key : string) (val : Value) :
  visit ToLower st (key, val) = Done st' →
  activeVCL st' = adopt (activeVCL st) key
  ∧ ((kept (activeVCL st') key = true
      ∧ ∃ m, metrics st' = metrics st ++ [m]
             ∧ follows_table ToLower (key, val) m)
     ∨ (kept (activeVCL st') key = false ∧ metrics st' = metrics st)).
Proof.
  unfold visit, adopt, kept, revision_id, recognized, follows_table, dot_path.
  cbn [fst snd].
  destruct (decide (key = "version")) as [->|Hv].
  { intros [= <-]. split; [done|]. right. done. }
  rewrite (bool_decide_eq_true_2 (key ≠ "version")) by done.
  generalize (GoStrings.Split key "."). intros splits.
  destruct splits as [|p [|s2 rest]].
  1,2: intros [= <-]; split; [done|]; right; done.
  cbn [length hd index lookup list_lookup mbind go_bind bind].
  destruct (decide (S (S (length rest)) < 2)%nat) as [Hlt|_]; [lia|].
  rewrite (bool_decide_eq_true_2 (2 ≤ S (S (length rest)))%nat) by lia.
  cbn [andb].
  destruct (decide (p = "VBE")) as [->|HVBE].
  { rewrite (bool_decide_eq_true_2 (_ ∈ vocabulary))
      by (apply in_vocabulary; tauto).
    rewrite (bool_decide_eq_true_2 ("VBE" = "VBE")) by done.
    cbn [andb activeVCL fmt_Println].
    set (st1 := if decide (activeVCL st = "") then _ else _).
    assert (Hst1 : activeVCL st1
                   = (if decide (activeVCL st = "") then s2 else activeVCL st)
                   ∧ metrics st1 = metrics st).
    { unfold st1. by destruct (decide (activeVCL st = "")). }
    clearbody st1. destruct Hst1 as [Hact Hmet].
    destruct (decide (s2 ≠ activeVCL st1)) as [Hne|Heq].
    - intros [= <-]. split; [done|]. right.
      split; [by apply bool_decide_eq_false_2 | done].
    - apply dec_stable in Heq.
      destruct rest as [|s3 [|s4 rest]]; [done..|].
      intros [= <-]. cbn [activeVCL metrics append_metric].
      split; [done|]. left. split; [by apply bool_decide_eq_true_2|].
      eexists. split; [by rewrite Hmet|]. done. }
  rewrite (bool_decide_eq_false_2 (p = "VBE")) by done.
  rewrite andb_false_r.
  repeat
    (match goal with
     | |- context [decide (p = ?lit)] =>
         destruct (decide (p = lit)) as [->|?];
         [ rewrite (bool_decide_eq_true_2 (_ ∈ vocabulary))
             by (apply in_vocabulary; tauto);
           try (destruct rest as [|s3 rest]; [done|]);
           intros [= <-]; cbn [activeVCL metrics append_metric];
           split; [done|]; left; split; [done|];
           eexists; split; [done|]; split; [done|];
           unfold table_row; repeat (destruct (decide _); try done)
         | ]
     end).
  intros [= <-]. split; [done|]. right. split; [|done].
  rewrite bool_decide_eq_false_2; [done|].
  rewrite in_vocabulary. tauto.
Qed.

Lemma for_range_visit (obj : list (string * Value)) (st st' : visitor) :
  for_range (visit ToLower) obj st = Done st' →
  activeVCL st' = final_revision (activeVCL st) obj
  ∧ ∃ new, metrics st' = metrics st ++ new
           ∧ Forall2 (follows_table ToLower) (retained (activeVCL st) obj) new.
Proof.
  revert st. induction obj as [|[key val] obj IH]; intros st.
  - intros [= <-]. split; [done|]. exists []. by rewrite app_nil_r.
  - cbn [for_range]. destruct (visit ToLower st (key, val)) as [st1|e] eqn:Hv;
      [|done].
    cbn [bind]. intros Hrun.
    apply visit_Done in Hv as [Hact Hstep].
    apply IH in Hrun as [Hfin (new & Hmet & Hall)].
    unfold final_revision in *. cbn [fmap list_fmap fst foldl retained].
    rewrite <- Hact. split; [done|].
    destruct Hstep as [[Hk (m & Hm & Hrow)] | [Hk Hm]]; rewrite Hk.
    + exists (m :: new). rewrite Hmet, Hm, <- app_assoc. split; [done|].
      by constructor.
    + exists new. rewrite Hmet, Hm. done.
Qed.

Lemma collect_Done (obj : list (string * Value)) (rev : string) (st : visitor) :
  collect ToLower obj rev = Done st →
  activeVCL st = final_revision rev obj
  ∧ Forall2 (follows_table ToLower) (retained rev obj) (metrics st).
Proof.
  intros Hrun. apply for_range_visit in Hrun as [Hfin (new & Hmet & Hall)].
  cbn in Hmet. by subst.
Qed.

(** A step completes unless a retained key is shorter than its table row
    reads. *)
Lemma visit_completes (st : visitor) (key : string) (val : Value) :
  (kept (adopt (activeVCL st) key) key = true →
   is_Some (table_row ToLower (dot_path key))) →
  ∃ st', visit ToLower st (key, val) = Done st'.
Proof.
  unfold visit, adopt, kept, revision_id, recognized, dot_path.
  destruct (decide (key = "version")) as [->|Hv]; [by eexists|].
  rewrite (bool_decide_eq_true_2 (key ≠ "version")) by done.
  generalize (GoStrings.Split key "."). intros splits.
  destruct splits as [|p [|s2 rest]]; [by eexists..|].
  cbn [length hd index lookup list_lookup mbind go_bind bind].
  destruct (decide (S (S (length rest)) < 2)%nat) as [Hlt|_]; [lia|].
  rewrite (bool_decide_eq_true_2 (2 ≤ S (S (length rest)))%nat) by lia.
  cbn [andb].
  destruct (decide (p = "VBE")) as [->|HVBE].
  { rewrite (bool_decide_eq_true_2 (_ ∈ vocabulary))
      by (apply in_vocabulary; tauto).
    rewrite (bool_decide_eq_true_2 ("VBE" = "VBE")) by done.
    cbn [andb activeVCL fmt_Println].
    destruct (decide (activeVCL st = "")) as [Ha|Ha];
      cbn [activeVCL set_activeVCL fmt_Println].
    - destruct (decide (s2 ≠ s2)) as [?|_]; [done|].
      rewrite bool_decide_eq_true_2 by done. intros Hrow.
      destruct Hrow as [row Hrow]; [done|].
      unfold table_row in Hrow. destruct (decide ("VBE" = "VBE")); [|done].
      destruct rest as [|s3 [|s4 rest]]; [done..|]. by eexists.
    - destruct (decide (s2 ≠ activeVCL st)) as [?|Heq]; [by eexists|].
      apply dec_stable in Heq.
      rewrite bool_decide_eq_true_2 by done. intros Hrow.
      destruct Hrow as [row Hrow]; [done|].
      unfold table_row in Hrow. destruct (decide ("VBE" = "VBE")); [|done].
      destruct rest as [|s3 [|s4 rest]]; [done..|]. by eexists. }
  rewrite (bool_decide_eq_false_2 (p = "VBE")) by done.
  rewrite andb_false_r.
  repeat
    (match goal with
     | |- context [decide (p = ?lit)] =>
         destruct (decide (p = lit)) as [->|?];
         [ rewrite (bool_decide_eq_true_2 (_ ∈ vocabulary))
             by (apply in_vocabulary; tauto);
           intros Hrow; destruct Hrow as [row Hrow]; [done|];
           unfold table_row in Hrow;
           repeat (destruct (decide _) in Hrow; try done);
           try (destruct rest as [|s3 rest]; [done|]);
           by eexists
         | ]
     end).
  by eexists.
Qed.
End Step.

(** ** Rendering *)

Lemma unlines_app (l1 l2 : list string) :
  unlines (l1 ++ l2) = unlines l1 +:+ unlines l2.
Proof.
  induction l1 as [|l l1 IH]; [done|].
  cbn [app unlines foldr]. fold (unlines (l1 ++ l2)). fold (unlines l1).
  by rewrite IH, !app_assoc_s.
Qed.

Lemma write_metric_lines (w : string) (m : Metric) :
  write_metric w m = w +:+ unlines (metric_lines m).
Proof.
  unfold write_metric, metric_lines, unlines, help_line, type_line,
    sample_line, full_name, description, type_of_flag, string_of_bytes,
    GetStringBytes.
  cbn [foldr].
  assert (Hty : (if decide (default "" match Get (Value_ m) "flag" with
                                        | Some (String_ s) => Some s
                                        | _ => None
                                        end = "g")
                 then "gauge" else "counter")
                = match Get (Value_ m) "flag" with
                  | Some (String_ s) => if decide (s = "g") then "gauge" else "counter"
                  | _ => "counter"
                  end).
  { destruct (Get (Value_ m) "flag") as [[]|]; done. }
  rewrite Hty. by rewrite !app_assoc_s, app_empty_r.
Qed.

Lemma foldl_write_metric (w : string) (ms : list Metric) :
  foldl write_metric w ms = w +:+ unlines (ms ≫= metric_lines).
Proof.
  revert w. induction ms as [|m ms IH]; intros w.
  - by rewrite app_empty_r.
  - cbn [foldl]. rewrite IH, write_metric_lines.
    change ((m :: ms) ≫= metric_lines)
      with (metric_lines m ++ (ms ≫= metric_lines)).
    by rewrite unlines_app, app_assoc_s.
Qed.

Lemma write_active_vcl_block (w a : string) :
  write_active_vcl w a = w +:+ active_vcl_block a.
Proof.
  unfold write_active_vcl, active_vcl_block. by rewrite !app_assoc_s.
Qed.

Section Render.
Variable ToLower : string → string.

Lemma genMetrics_Done (obj : list (string * Value)) (rev text : string) :
  genMetrics ToLower obj rev = Done text ↔
  ∃ st, collect ToLower obj rev = Done st
        ∧ text = unlines (metrics st ≫= metric_lines)
                 +:+ active_vcl_block (activeVCL st).
Proof.
  unfold genMetrics. destruct (collect ToLower obj rev) as [st|e]; cbn.
  - rewrite foldl_write_metric, write_active_vcl_block, app_empty_l.
    split.
    + intros [= <-]. by exists st.
    + intros (st' & [= <-] & ->). done.
  - split; [done|]. by intros (st' & ? & _).
Qed.
End Render.

(** ** Classification *)

Section Classification.
Variable ToLower : string → string.

Lemma for_range_completes (obj : list (string * Value)) (st : visitor) :
  Forall (λ entry, is_Some (table_row ToLower (dot_path entry.1)))
    (retained (activeVCL st) obj) →
  ∃ st', for_range (visit ToLower) obj st = Done st'.
Proof.
  revert st. induction obj as [|[key val] obj IH]; intros st Hrows.
  - by eexists.
  - cbn [retained] in Hrows. apply Forall_app in Hrows as [Hhere Hrest].
    destruct (visit_completes ToLower st key val) as [st1 Hst1].
    { intros Hk. rewrite Hk in Hhere. by inversion Hhere. }
    cbn [for_range]. rewrite Hst1. cbn [bind].
    apply visit_Done in Hst1 as [Hact _]. apply IH. by rewrite Hact.
Qed.

(** C1, as amended.  When every retained key has the segments its table
    row reads, the visiting pass completes, and the Metrics it has built
    are, in visiting order, one for each retained key, with the key's node
    as value and the category, name and labels of the table.  A key is
    retained when it is not [version], has at least two segments and a
    first segment of the vocabulary, and, for a VBE key, a revision id
    equal to the active revision; every other key yields no Metric. *)
Theorem one_metric_per_retained_key (obj : list (string * Value))
    (rev : string) :
  Forall (λ entry, is_Some (table_row ToLower (dot_path entry.1)))
    (retained rev obj) →
  ∃ st, collect ToLower obj rev = Done st
        ∧ Forall2 (follows_table ToLower) (retained rev obj) (metrics st).
Proof.
  intros Hrows.
  destruct (for_range_completes obj (Visitor rev [] [] []) Hrows) as [st Hst].
  exists st. split; [done|]. by apply collect_Done in Hst as [_ ?].
Qed.

End Classification.

Lemma one_metric_per_retained_key_witness :
  let obj := [ ("version", String_ "1"); ("MEMPOOL.busyobj.live", Null);
               ("VBE.a.be1.conn", Null); ("VBE.b.be2.conn", Null);
               ("uptime", Null); ("FOO.bar", Null); ("MGT.uptime", Null) ] in
  retained "" obj
  = [("MEMPOOL.busyobj.live", Null); ("VBE.a.be1.conn", Null);
     ("MGT.uptime", Null)]
  ∧ ∃ st, collect GoStrings.ToLower_ascii obj "" = Done st
          ∧ Forall2 (follows_table GoStrings.ToLower_ascii)
              (retained "" obj) (metrics st).
Proof.
  split; [vm_compute; reflexivity|].
  apply (one_metric_per_retained_key GoStrings.ToLower_ascii).
  vm_compute. repeat constructor; by eexists.
Defined.

(** C1, as stated, fails: both keys of [two_revisions] are recognized, yet
    the pass builds one Metric, for the first. *)
Lemma one_metric_per_recognized_key_fails :
  Forall (λ entry, recognized entry.1 = true) two_revisions
  ∧ length two_revisions = 2%nat
  ∧ ∃ st, collect GoStrings.ToLower_ascii two_revisions "" = Done st
          ∧ length (metrics st) = 1%nat.
Proof.
  split; [|split].
  - repeat constructor.
  - reflexivity.
  - eexists. split; [vm_compute; reflexivity|]. reflexivity.
Qed.

(** ** The active revision *)

Lemma adopt_set (active key : string) : active ≠ "" → adopt active key = active.
Proof.
  intros Ha. unfold adopt. destruct (revision_id key); [|done].
  by destruct (decide (active = "")).
Qed.

Lemma final_revision_set (active : string) (obj : list (string * Value)) :
  active ≠ "" → final_revision active obj = active.
Proof.
  intros Ha. unfold final_revision.
  induction obj as [|[key val] obj IH]; [done|].
  cbn [fmap list_fmap foldl fst]. by rewrite adopt_set.
Qed.

Lemma final_revision_unset (obj : list (string * Value)) :
  Forall adopts_nothing obj → final_revision "" obj = "".
Proof.
  unfold final_revision. induction 1 as [|[key val] obj Hkey _ IH]; [done|].
  cbn [fmap list_fmap foldl fst].
  replace (adopt "" key) with ""; [done|].
  unfold adopts_nothing in Hkey. cbn [fst] in Hkey.
  unfold adopt. by destruct Hkey as [-> | ->].
Qed.

Lemma final_revision_adopted (pre post : list (string * Value))
    (key : string) (val : Value) (r : string) :
  Forall adopts_nothing pre → revision_id key = Some r → r ≠ "" →
  final_revision "" (pre ++ (key, val) :: post) = r.
Proof.
  intros Hpre Hkey Hr. unfold final_revision.
  rewrite fmap_app, foldl_app. fold (final_revision "" pre).
  rewrite final_revision_unset by done.
  cbn [fmap list_fmap foldl fst].
  replace (adopt "" key) with r by (unfold adopt; by rewrite Hkey).
  by apply final_revision_set.
Qed.

Section Revision.
Variable ToLower : string → string.

(** A VBE key of another revision than the one in force yields no Metric
    and leaves the active revision as it is. *)
Lemma visit_other_revision (st : visitor) (key : string) (val : Value)
    (r : string) :
  activeVCL st ≠ "" → revision_id key = Some r → r ≠ activeVCL st →
  ∃ st', visit ToLower st (key, val) = Done st'
         ∧ metrics st' = metrics st ∧ activeVCL st' = activeVCL st.
Proof.
  intros Hset Hkey Hr.
  destruct (visit_completes ToLower st key val) as [st' Hst'].
  { unfold kept, adopt. rewrite Hkey.
    destruct (decide (activeVCL st = "")); [done|].
    rewrite (bool_decide_eq_false_2 (r = activeVCL st)) by done.
    by rewrite andb_false_r. }
  exists st'. split; [done|].
  apply visit_Done in Hst' as [Hact Hstep].
  rewrite adopt_set in Hact by done. split; [|done].
  destruct Hstep as [[Hk _] | [_ Hm]]; [|done].
  unfold kept in Hk. rewrite Hkey, Hact in Hk.
  rewrite (bool_decide_eq_false_2 (r = activeVCL st)) in Hk by done.
  by rewrite andb_false_r in Hk.
Qed.

(** C2, as amended.  With no active revision given, the first non-empty
    revision id of a VBE key is the active revision at every later point
    of the pass; a given active revision stays as it is; once the active
    revision is set, a VBE key with another revision id yields no Metric;
    and [VBE.a.be1.conn] followed by [VBE.b.be2.conn] yields the Metric of
    revision [a], backend [be1], alone. *)
Theorem revision_filtering :
  (∀ pre key val r mid st,
     Forall adopts_nothing pre → revision_id key = Some r → r ≠ "" →
     collect ToLower (pre ++ (key, val) :: mid) "" = Done st →
     activeVCL st = r)
  ∧ (∀ obj rev st,
       rev ≠ "" → collect ToLower obj rev = Done st → activeVCL st = rev)
  ∧ (∀ st key val r,
       activeVCL st ≠ "" → revision_id key = Some r → r ≠ activeVCL st →
       ∃ st', visit ToLower st (key, val) = Done st'
              ∧ metrics st' = metrics st ∧ activeVCL st' = activeVCL st)
  ∧ (∃ st m,
       collect ToLower two_revisions "" = Done st
       ∧ activeVCL st = "a" ∧ metrics st = [m]
       ∧ Category m = "backend" ∧ Name m = "conn"
       ∧ Labels m = {[ "name" := "be1" ]}).
Proof.
  split; [|split; [|split]].
  - intros pre key val r mid st Hpre Hkey Hr Hrun.
    apply collect_Done in Hrun as [-> _].
    by apply final_revision_adopted.
  - intros obj rev st Hrev Hrun.
    apply collect_Done in Hrun as [-> _]. by apply final_revision_set.
  - intros st key val r. apply visit_other_revision.
  - eexists _, _. split; [vm_compute; reflexivity|]. done.
Qed.

(** C9, as amended.  With no active revision given, the version label of
    the closing [varnish_active_vcl] sample is the first non-empty revision
    id of a VBE key. *)
Theorem active_vcl_label_adopted (pre post : list (string * Value))
    (key : string) (val : Value) (r text : string) :
  Forall adopts_nothing pre → revision_id key = Some r → r ≠ "" →
  genMetrics ToLower (pre ++ (key, val) :: post) "" = Done text →
  ∃ body, text = body +:+ active_vcl_block r.
Proof.
  intros Hpre Hkey Hr Hgen.
  apply genMetrics_Done in Hgen as (st & Hrun & ->).
  apply collect_Done in Hrun as [-> _].
  rewrite (final_revision_adopted pre post key val r) by done. by eexists.
Qed.

End Revision.

Lemma revision_filtering_witness :
  let first := [("MAIN.uptime", Null); ("VBE..be0.conn", Null)] in
  let st := Visitor "a" [] [] [] in
  (∃ st', collect GoStrings.ToLower_ascii
            (first ++ ("VBE.a.be1.conn", Null) :: [("VBE.b.be2.conn", Null)])
            "" = Done st' ∧ activeVCL st' = "a")
  ∧ (∃ st', visit GoStrings.ToLower_ascii st ("VBE.b.be2.conn", Null) = Done st'
            ∧ metrics st' = metrics st ∧ activeVCL st' = activeVCL st).
Proof.
  destruct (revision_filtering GoStrings.ToLower_ascii) as (Hadopt & _ & Hdrop & _).
  split.
  - eexists. split; [vm_compute; reflexivity|].
    apply (Hadopt [("MAIN.uptime", Null); ("VBE..be0.conn", Null)]
             "VBE.a.be1.conn" Null "a" [("VBE.b.be2.conn", Null)]).
    + apply Forall_cons. split; [by left|].
      apply Forall_cons. split; [by right | constructor].
    + reflexivity.
    + done.
    + vm_compute; reflexivity.
  - apply (Hdrop _ _ _ "b"); [done | reflexivity | done].
Defined.

(** C2, as stated, fails: the first VBE key has the empty revision id, and
    the next VBE key, of revision [a], still yields a Metric and becomes the
    active revision. *)
Lemma first_revision_not_adopted :
  let obj := [("VBE..be1.conn", Null); ("VBE.a.be2.conn", Null)] in
  revision_id "VBE..be1.conn" = Some ""
  ∧ revision_id "VBE.a.be2.conn" = Some "a"
  ∧ ∃ st, collect GoStrings.ToLower_ascii obj "" = Done st
          ∧ length (metrics st) = 2%nat ∧ activeVCL st = "a".
Proof.
  split; [reflexivity|]. split; [reflexivity|].
  eexists. split; [vm_compute; reflexivity|]. done.
Qed.

Lemma active_vcl_label_adopted_witness :
  let obj := [("MAIN", Null)] ++ ("VBE.a.be1.conn", Null)
             :: [("VBE.b.be2.conn", Null)] in
  let text :=
    unlines (metric_lines (newMetric "backend" "conn" {[ "name" := "be1" ]} Null))
    +:+ active_vcl_block "a" in
  genMetrics GoStrings.ToLower_ascii obj "" = Done text
  ∧ ∃ body, text = body +:+ active_vcl_block "a".
Proof.
  assert (Hgen : genMetrics GoStrings.ToLower_ascii
                   ([("MAIN", Null)] ++ ("VBE.a.be1.conn", Null)
                    :: [("VBE.b.be2.conn", Null)]) ""
                 = Done (unlines (metric_lines (newMetric "backend" "conn"
                                    {[ "name" := "be1" ]} Null))
                         +:+ active_vcl_block "a")).
  { vm_compute. reflexivity. }
  split; [exact Hgen|].
  apply (active_vcl_label_adopted GoStrings.ToLower_ascii
           [("MAIN", Null)] [("VBE.b.be2.conn", Null)] "VBE.a.be1.conn" Null "a");
    [ apply Forall_cons; split; [by left | constructor]
    | reflexivity | done | exact Hgen ].
Defined.

(** C9, as stated, fails: with the one key [VBE..be1.conn], whose revision
    id is empty, the version label is the empty string that was passed in;
    and when a key of revision [b] follows it, the label is [b], not the
    revision id of the first VBE key. *)
Lemma active_vcl_label_not_first :
  revision_id "VBE..be1.conn" = Some ""
  ∧ (∃ body, genMetrics GoStrings.ToLower_ascii [("VBE..be1.conn", Null)] ""
             = Done (body +:+ active_vcl_block ""))
  ∧ (∃ body, genMetrics GoStrings.ToLower_ascii
               [("VBE..be1.conn", Null); ("VBE.b.be2.conn", Null)] ""
             = Done (body +:+ active_vcl_block "b")).
Proof.
  split; [reflexivity|].
  split; eexists; rewrite genMetrics_Done; eexists;
    (split; [vm_compute; reflexivity | reflexivity]).
Qed.

(** ** Labels *)

Section Labels.
Variable ToLower : string → string.

Lemma table_row_labels (path : list string) (category name : string)
    (labels : gmap string string) :
  table_row ToLower path = Some (category, name, labels) →
  (category ∈ ["backend"; "mempool"; "sma"; "lock"; "smf"]
   ∧ ∃ k v, labels = {[ k := v ]})
  ∨ (category ∈ ["main"; "mgt"] ∧ labels = ∅).
Proof.
  unfold table_row. intros Hrow.
  destruct path as [|first [|second rest]]; [done..|].
  repeat (match type of Hrow with
          | context [decide ?P] => destruct (decide P)
          | context [match ?l with [] => _ | _ :: _ => _ end] => destruct l
          end; try done);
    injection Hrow as <- <- <-;
    solve [ left; split; [set_solver | by eexists _, _]
          | right; split; [set_solver | done] ].
Qed.

Lemma formatLabel_order_irrelevant (labels : gmap string string)
    (order : list (string * string)) :
  (size labels ≤ 1)%nat → order ≡ₚ map_to_list labels →
  formatLabel_from order = formatLabel labels.
Proof.
  intros Hsize Hperm. unfold formatLabel.
  rewrite <- length_map_to_list in Hsize.
  destruct (map_to_list labels) as [|e [|e' l]]; [| |simpl in Hsize; lia].
  - by apply Permutation_nil_r in Hperm as ->.
  - by apply Permutation_singleton_r in Hperm as ->.
Qed.

(** C10.  A Metric the visiting pass has built has one label entry when
    its category is backend, mempool, sma, lock or smf and none when it is
    main or mgt; so its label block is the same text in whatever order
    [range] visits the mapping. *)
Theorem one_label_at_most (obj : list (string * Value)) (rev : string)
    (st : visitor) :
  collect ToLower obj rev = Done st →
  Forall (λ m,
            ((Category m ∈ ["backend"; "mempool"; "sma"; "lock"; "smf"]
              ∧ size (Labels m) = 1%nat)
             ∨ (Category m ∈ ["main"; "mgt"] ∧ size (Labels m) = 0%nat))
            ∧ ∀ order, order ≡ₚ map_to_list (Labels m) →
                       formatLabel_from order = formatLabel (Labels m))
    (metrics st).
Proof.
  intros Hrun. apply collect_Done in Hrun as [_ Hall].
  induction Hall as [|entry m entries ms [_ Hrow] _ IH]; constructor; [|done].
  apply table_row_labels in Hrow as [[Hcat (k & v & Hl)] | [Hcat Hl]].
  - assert (Hsize : size (Labels m) = 1%nat)
      by (rewrite Hl; apply map_size_singleton).
    split; [by left|]. intros order. apply formatLabel_order_irrelevant. lia.
  - assert (Hsize : size (Labels m) = 0%nat)
      by (rewrite Hl; apply map_size_empty).
    split; [by right|]. intros order. apply formatLabel_order_irrelevant. lia.
Qed.

End Labels.

Lemma one_label_at_most_witness :
  let obj := [("SMA.S0.g_bytes", Null); ("MAIN.uptime", Null)] in
  ∃ st, collect GoStrings.ToLower_ascii obj "" = Done st
        ∧ (Category <$> metrics st) = ["sma"; "main"]
        ∧ (size <$> (Labels <$> metrics st)) = [1; 0]%nat
        ∧ Forall (λ m, ∀ order, order ≡ₚ map_to_list (Labels m) →
                                formatLabel_from order = formatLabel (Labels m))
            (metrics st).
Proof.
  eexists. split; [vm_compute; reflexivity|].
  split; [reflexivity|]. split; [reflexivity|].
  eapply Forall_impl.
  - apply (one_label_at_most GoStrings.ToLower_ascii
             [("SMA.S0.g_bytes", Null); ("MAIN.uptime", Null)] "").
    vm_compute. reflexivity.
  - intros m [_ Horder]. exact Horder.
Defined.

(** ** Type mapping and the rendered text *)

Lemma type_of_flag_gauge (node : Value) :
  type_of_flag node = "gauge" ↔ Get node "flag" = Some (String_ "g").
Proof.
  unfold type_of_flag.
  destruct (Get node "flag") as [[| | |s| | |]|]; try (split; done).
  destruct (decide (s = "g")) as [->|Hs]; [done|].
  split; [done|]. intros [= ->]. done.
Qed.

Lemma type_of_flag_counter (node : Value) :
  type_of_flag node = "counter" ↔ Get node "flag" ≠ Some (String_ "g").
Proof.
  unfold type_of_flag.
  destruct (Get node "flag") as [[| | |s| | |]|]; try (split; done).
  destruct (decide (s = "g")) as [->|Hs]; [split; done|].
  split; [|done]. intros _ [= ->]. done.
Qed.

Section TypeMapping.
Variable ToLower : string → string.

(** C6.  The output is the lines of the retained Metrics, three per
    Metric, followed by the closing block; the second line of a Metric is
    [# TYPE <name> gauge] exactly when the [flag] field of its node is the
    string [g], and [# TYPE <name> counter] otherwise, also when the field
    is absent. *)
Theorem type_mapping (obj : list (string * Value)) (rev text : string) :
  genMetrics ToLower obj rev = Done text →
  ∃ st, collect ToLower obj rev = Done st
        ∧ text = unlines (metrics st ≫= metric_lines)
                 +:+ active_vcl_block (activeVCL st)
        ∧ Forall (λ m,
                    metric_lines m !! 1%nat = Some (type_line m)
                    ∧ (Get (Value_ m) "flag" = Some (String_ "g") →
                       type_line m = "# TYPE " +:+ full_name m +:+ " gauge")
                    ∧ (Get (Value_ m) "flag" ≠ Some (String_ "g") →
                       type_line m = "# TYPE " +:+ full_name m +:+ " counter"))
            (metrics st).
Proof.
  intros Hgen. apply genMetrics_Done in Hgen as (st & Hrun & ->).
  exists st. split; [done|]. split; [done|].
  apply Forall_forall. intros m _. split; [done|]. unfold type_line.
  split; intros Hflag.
  - apply type_of_flag_gauge in Hflag. by rewrite Hflag.
  - apply type_of_flag_counter in Hflag. by rewrite Hflag.
Qed.

(** C8.  The document with the one counter [MAIN.uptime] renders as its
    three lines followed by the closing block with an empty version. *)
Theorem end_to_end :
  genMetrics ToLower uptime_document ""
  = Done ("# HELP varnish_main_uptime d" +:+ LF
          +:+ "# TYPE varnish_main_uptime counter" +:+ LF
          +:+ "varnish_main_uptime 42" +:+ LF
          +:+ active_vcl_block "").
Proof. vm_compute. reflexivity. Qed.

(** C3.  A recognized key shorter than its table row reads makes
    [genMetrics] panic, whatever the active revision. *)
Theorem short_key_panics (rev : string) :
  genMetrics ToLower [("MEMPOOL.x", Object [("value", Number "1")])] rev
  = Panics (IndexOutOfRange 2 2).
Proof. reflexivity. Qed.

End TypeMapping.

Lemma type_mapping_witness :
  let obj := [ ("MAIN.g", Object [("flag", String_ "g")]);
               ("MAIN.c", Object [("flag", String_ "c")]);
               ("MAIN.none", Object []) ] in
  ∃ st, collect GoStrings.ToLower_ascii obj "" = Done st
        ∧ (type_line <$> metrics st)
          = ["# TYPE varnish_main_g gauge"; "# TYPE varnish_main_c counter";
             "# TYPE varnish_main_none counter"]
        ∧ Forall (λ m,
                    metric_lines m !! 1%nat = Some (type_line m)
                    ∧ (Get (Value_ m) "flag" = Some (String_ "g") →
                       type_line m = "# TYPE " +:+ full_name m +:+ " gauge")
                    ∧ (Get (Value_ m) "flag" ≠ Some (String_ "g") →
                       type_line m = "# TYPE " +:+ full_name m +:+ " counter"))
            (metrics st).
Proof.
  destruct (type_mapping GoStrings.ToLower_ascii
              [ ("MAIN.g", Object [("flag", String_ "g")]);
                ("MAIN.c", Object [("flag", String_ "c")]);
                ("MAIN.none", Object []) ] "" _ eq_refl)
    as (st & Hrun & _ & Hall).
  exists st. split; [exact Hrun|]. split; [|exact Hall].
  vm_compute in Hrun. injection Hrun as <-. reflexivity.
Defined.

(** Fields a node lacks, or holds with another type, read as the empty
    string and as zero. *)
Lemma description_default (node : Value) :
  (∀ s, Get node "description" ≠ Some (String_ s)) → description node = "".
Proof.
  intros Hnone. unfold description, GetStringBytes.
  destruct (Get node "description") as [[| | |s| | |]|]; try done.
  by destruct (Hnone s).
Qed.

Lemma GetInt_default (node : Value) (key : string) :
  (∀ s, Get node key ≠ Some (Number s)) → GetInt node key = 0%Z.
Proof.
  intros Hnone. unfold GetInt.
  destruct (Get node key) as [[| | | |s| |]|]; try done.
  by destruct (Hnone s).
Qed.

Example GetInt_fraction :
  GetInt (Object [("value", Number "1.5")]) "value" = 0%Z.
Proof. reflexivity. Qed.

(** ** The revision resolver *)

Section ResolverFacts.
Variable Parse : string → Value + error.

Lemma parseVCLList_undecodable (input : string) (err : error) :
  Parse input = inr err → parseVCLList Parse input = Done ("", Some err).
Proof. intros H. unfold parseVCLList. by rewrite H. Qed.

Lemma parseVCLList_not_array (input : string) (val : Value) :
  Parse input = inl val → (∀ a, val ≠ Array a) →
  parseVCLList Parse input = Done ("", Some (NotAnArray (type_of val))).
Proof.
  intros H Hval. unfold parseVCLList. rewrite H.
  destruct val; try done. by destruct (Hval a).
Qed.

Lemma parseVCLList_loop_none (l : list Value) :
  Forall (λ v, GetStringBytes v "status" ≠ Some "active") l →
  parseVCLList_loop l = ("", Some (ErrorsNew "No active ACL found")).
Proof.
  induction 1 as [|v l Hv _ IH]; [done|]. cbn [parseVCLList_loop].
  destruct (decide _) as [Heq|_]; [|done].
  destruct (GetStringBytes v "status") as [s|]; [|done].
  cbn in Heq. by subst.
Qed.

Lemma parseVCLList_active (input : string) (m0 m1 m2 record : Value)
    (rest : list Value) (name : string) :
  Parse input = inl (Array (m0 :: m1 :: m2 :: record :: rest)) →
  GetStringBytes record "status" = Some "active" →
  GetStringBytes record "name" = Some name →
  parseVCLList Parse input = Done (name, None).
Proof.
  intros H Hst Hname. unfold parseVCLList, slice_from. rewrite H.
  cbn [Value_Array].
  destruct (decide _) as [_|Hlen]; [|simpl in Hlen; lia].
  cbn [drop mbind go_bind bind parseVCLList_loop]. rewrite Hst, Hname.
  by destruct (decide _).
Qed.

Lemma parseVCLList_no_active (input : string) (arr : list Value) :
  Parse input = inl (Array arr) → (3 ≤ length arr)%nat →
  Forall (λ v, GetStringBytes v "status" ≠ Some "active") (drop 3 arr) →
  parseVCLList Parse input
  = Done ("", Some (ErrorsNew "No active ACL found")).
Proof.
  intros H Hlen Hnone. unfold parseVCLList, slice_from. rewrite H. cbn.
  destruct (decide (3 ≤ length arr)%nat); [|done].
  cbn. by rewrite parseVCLList_loop_none.
Qed.

(** C5.  On text that decodes to an array of fewer than three entries,
    among them the empty array, [parseVCLList] panics on [arr[3:]]; it
    returns no error. *)
Theorem short_list_panics (input : string) (arr : list Value) :
  Parse input = inl (Array arr) → (length arr < 3)%nat →
  parseVCLList Parse input
  = Panics (SliceBoundsOutOfRange 3 (length arr)).
Proof.
  intros H Hlen. unfold parseVCLList, slice_from. rewrite H. cbn.
  destruct (decide (3 ≤ length arr)%nat); [lia|done].
Qed.

End ResolverFacts.

Lemma short_list_panics_witness :
  sample_Parse "[]" = inl (Array [])
  ∧ parseVCLList sample_Parse "[]" = Panics (SliceBoundsOutOfRange 3 0).
Proof.
  split; [reflexivity|].
  apply (short_list_panics sample_Parse "[]" []); [reflexivity | simpl; lia].
Defined.

Example parseVCLList_boot :
  parseVCLList sample_Parse (vcl_list_text "active" "boot") = Done ("boot", None).
Proof. reflexivity. Qed.

Example parseVCLList_cold :
  parseVCLList sample_Parse (vcl_list_text "available" "cold")
  = Done ("", Some (ErrorsNew "No active ACL found")).
Proof. reflexivity. Qed.

(** ** Lines *)

Lemma LF_cons (s : string) : LF +:+ s = String "010" s.
Proof. reflexivity. Qed.

Lemma LF_free_app (a b : string) :
  LF_free (a +:+ b) = LF_free a && LF_free b.
Proof.
  induction a as [|c a IH]; [done|].
  rewrite app_cons. cbn [LF_free]. by rewrite IH, andb_assoc.
Qed.

Lemma LF_free_cons (c : ascii) (s : string) :
  LF_free (String c s) = true ↔ c ≠ "010"%char ∧ LF_free s = true.
Proof.
  cbn [LF_free]. rewrite andb_true_iff, bool_decide_eq_true. done.
Qed.

(** Two texts that agree have the same first line and the same rest. *)
Lemma first_line_inj (a a' r r' : string) :
  LF_free a = true → LF_free a' = true →
  a +:+ LF +:+ r = a' +:+ LF +:+ r' → a = a' ∧ r = r'.
Proof.
  revert a'. induction a as [|c a IH]; intros a' Ha Ha'.
  - destruct a' as [|c' a'].
    + rewrite !app_empty_l, !LF_cons. by intros [= ->].
    + rewrite app_cons, app_empty_l, LF_cons. intros [= <- _].
      apply LF_free_cons in Ha' as [? _]. done.
  - apply LF_free_cons in Ha as [Hc Ha].
    destruct a' as [|c' a'].
    + rewrite app_cons, app_empty_l, LF_cons. intros [= -> _]. done.
    + apply LF_free_cons in Ha' as [_ Ha'].
      rewrite !app_cons. intros [= -> Heq].
      destruct (IH a' Ha Ha' Heq) as [-> ->]. done.
Qed.

(** A text is one line, or a first line, a line feed and a rest. *)
Lemma first_line_cut (s : string) :
  LF_free s = true
  ∨ ∃ a r, LF_free a = true ∧ s = a +:+ LF +:+ r.
Proof.
  induction s as [|c s IH]; [by left|].
  destruct (decide (c = "010"%char)) as [->|Hc].
  - right. exists "", s. done.
  - destruct IH as [Hs | (a & r & Ha & ->)].
    + left. by apply LF_free_cons.
    + right. exists (String c a), r. split; [by apply LF_free_cons | done].
Qed.

Lemma unlines_cons (l : string) (ls : list string) :
  unlines (l :: ls) = l +:+ LF +:+ unlines ls.
Proof. reflexivity. Qed.

Lemma app_length_empty (x s : string) : x +:+ s = s → x = "".
Proof.
  intros Heq. apply (f_equal String.length) in Heq.
  rewrite length_app_s in Heq. destruct x; [done | cbn in Heq; lia].
Qed.

(** Where two consecutive lines [h], [t] sit in a text made of lines. *)
Lemma two_lines_position (h t : string) (ls : list string) (X Y : string) :
  Forall (λ l, LF_free l = true) ls → LF_free h = true → LF_free t = true →
  X +:+ h +:+ LF +:+ t +:+ LF +:+ Y = unlines ls →
  ∃ ls1 x ls2, ls = ls1 ++ (x +:+ h) :: t :: ls2
               ∧ X = unlines ls1 +:+ x ∧ Y = unlines ls2.
Proof.
  intros Hls Hh Ht. revert X. induction Hls as [|l ls Hl Hls IH]; intros X Heq.
  - apply (f_equal String.length) in Heq.
    rewrite !length_app_s in Heq. cbn in Heq. lia.
  - rewrite unlines_cons in Heq.
    destruct (first_line_cut X) as [HX | (a & r & Ha & ->)].
    + rewrite <- app_assoc_s in Heq.
      apply first_line_inj in Heq as [Hfirst Hrest];
        [|by rewrite LF_free_app, HX, Hh|done].
      destruct Hls as [|l2 ls2 Hl2 Hls2].
      * apply (f_equal String.length) in Hrest.
        rewrite !length_app_s in Hrest. cbn in Hrest. lia.
      * rewrite unlines_cons in Hrest.
        apply first_line_inj in Hrest as [<- ->]; [|done..].
        exists [], X, ls2. by rewrite <- Hfirst.
    + rewrite !app_assoc_s in Heq.
      apply first_line_inj in Heq as [-> Hrest]; [|done..].
      destruct (IH r Hrest) as (ls1 & x & ls2 & -> & -> & ->).
      exists (l :: ls1), x, ls2. rewrite unlines_cons, !app_assoc_s. done.
Qed.

(** A line that occurs once in a list has one place in it. *)
Lemma once_position {A : Type} (before ls1 ls2 : list A) (h t s p : A) :
  t ∉ before → h ≠ t → s ≠ t →
  before ++ [h; t; s] = ls1 ++ p :: t :: ls2 →
  ls1 = before ∧ p = h ∧ ls2 = [s].
Proof.
  intros Hnot Hh Hs. revert ls1.
  induction before as [|a before IH]; intros ls1 Heq.
  - destruct ls1 as [|a1 [|a2 [|a3 ls1]]]; simplify_eq/=; [done|].
    by destruct ls1.
  - apply not_elem_of_cons in Hnot as [Hta Hnot].
    destruct ls1 as [|a1 ls1]; simplify_eq/=.
    + destruct before as [|b before]; simplify_eq/=.
      apply not_elem_of_cons in Hnot as [? _]. done.
    + destruct (IH Hnot ls1) as (-> & -> & ->); done.
Qed.

(** In a text of lines that ends with the lines [h], [t], [s], where [t]
    is no other line, the three lines occur together at the end alone. *)
Lemma closing_lines_once (before : list string) (h t s X Y : string) :
  Forall (λ l, LF_free l = true ∧ l ≠ t) before →
  LF_free h = true → LF_free t = true → LF_free s = true →
  h ≠ t → s ≠ t →
  X +:+ unlines [h; t; s] +:+ Y = unlines (before ++ [h; t; s]) →
  X = unlines before ∧ Y = "".
Proof.
  intros Hbefore Hh Ht Hs Hht Hst Heq.
  rewrite !unlines_cons in Heq. rewrite !app_assoc_s in Heq.
  change (unlines []) with "" in Heq. rewrite app_empty_l in Heq.
  assert (Hlines : Forall (λ l, LF_free l = true) (before ++ [h; t; s])).
  { apply Forall_app. split.
    - eapply Forall_impl; [exact Hbefore|]. by intros l [? _].
    - by repeat constructor. }
  destruct (two_lines_position h t _ X (s +:+ LF +:+ Y) Hlines Hh Ht Heq)
    as (ls1 & x & ls2 & Hls & -> & Hrest).
  assert (Hnot : t ∉ before).
  { intros Hin. rewrite Forall_forall in Hbefore.
    by destruct (Hbefore t Hin) as [_ ?]. }
  destruct (once_position before ls1 ls2 h t s (x +:+ h) Hnot Hht Hst Hls)
    as (-> & Hx & ->).
  apply app_length_empty in Hx as ->. rewrite app_empty_r. split; [done|].
  rewrite unlines_cons in Hrest.
  apply first_line_inj in Hrest as [_ Hrest]; done.
Qed.

(** ** Lines of the output *)

Lemma Split_LF_free (s : string) (sep : ascii) :
  LF_free s = true → Forall (λ p, LF_free p = true) (GoStrings.Split s sep).
Proof.
  induction s as [|c s IH]; intros Hs; cbn [GoStrings.Split].
  - by repeat constructor.
  - apply LF_free_cons in Hs as [Hc Hs]. specialize (IH Hs).
    destruct (decide (c = sep)); [by constructor|].
    destruct (GoStrings.Split s sep) as [|piece pieces].
    + repeat constructor. by apply LF_free_cons.
    + inversion_clear IH. constructor; [by apply LF_free_cons | done].
Qed.

Lemma string_of_uint_LF_free (d : Decimal.uint) :
  LF_free (NilEmpty.string_of_uint d) = true.
Proof. induction d; cbn [NilEmpty.string_of_uint LF_free]; done. Qed.

Lemma format_int_LF_free (n : Z) : LF_free (format_int n) = true.
Proof.
  unfold format_int, NilZero.string_of_int, NilZero.string_of_uint.
  destruct (Z.to_int n) as [d|d]; destruct d; try done;
    rewrite ?LF_free_cons; try (split; [done|]);
    apply (string_of_uint_LF_free (_ _)).
Qed.

Lemma type_of_flag_LF_free (node : Value) : LF_free (type_of_flag node) = true.
Proof.
  unfold type_of_flag.
  destruct (Get node "flag") as [[| | |s| | |]|]; try done.
  by destruct (decide (s = "g")).
Qed.

Lemma formatLabel_singleton (k v : string) :
  formatLabel {[ k := v ]} = "{" +:+ k +:+ "=" +:+ dquote +:+ v +:+ dquote +:+ "}".
Proof.
  unfold formatLabel. rewrite map_to_list_singleton, formatLabel_from_cons.
  cbn [fmap list_fmap String.concat]. unfold label_pair. cbn [fst snd].
  by rewrite !app_assoc_s.
Qed.

Lemma retained_subset (active : string) (obj : list (string * Value)) :
  retained active obj ⊆ obj.
Proof.
  revert active. induction obj as [|[key val] obj IH]; intros active; [done|].
  cbn [retained]. destruct (kept _ _); cbn [app].
  - apply list_subseteq_skip, IH.
  - apply list_subseteq_cons, IH.
Qed.

Lemma adopt_LF_free (active key : string) :
  LF_free active = true → LF_free key = true →
  LF_free (adopt active key) = true.
Proof.
  intros Ha Hk. unfold adopt, revision_id, dot_path.
  destruct (_ && _); [|done].
  destruct (GoStrings.Split key "." !! 1%nat) as [r|] eqn:Hr; [|done].
  destruct (decide (active = "")); [|done].
  apply (Split_LF_free key ".") in Hk. rewrite Forall_forall in Hk.
  apply Hk. by eapply list_elem_of_lookup_2.
Qed.

Lemma final_revision_LF_free (rev : string) (obj : list (string * Value)) :
  LF_free rev = true → Forall (λ entry, LF_free entry.1 = true) obj →
  LF_free (final_revision rev obj) = true.
Proof.
  intros Hrev Hobj. revert rev Hrev. unfold final_revision.
  induction Hobj as [|[key val] obj Hkey _ IH]; intros rev Hrev; [done|].
  cbn [fmap list_fmap foldl fst]. apply IH. by apply adopt_LF_free.
Qed.

Section OutputLines.
Variable ToLower : string → string.
Hypothesis ToLower_LF_free : ∀ s, LF_free s = true → LF_free (ToLower s) = true.

Lemma table_row_LF_free (path : list string) (category name : string)
    (labels : gmap string string) :
  Forall (λ p, LF_free p = true) path →
  table_row ToLower path = Some (category, name, labels) →
  category ∈ ["backend"; "mempool"; "sma"; "lock"; "smf"; "main"; "mgt"]
  ∧ LF_free name = true ∧ LF_free (formatLabel labels) = true.
Proof.
  unfold table_row. intros Hpath Hrow.
  destruct path as [|first [|second rest]]; [done..|].
  apply Forall_cons in Hpath as [_ Hpath].
  apply Forall_cons in Hpath as [Hsecond Hrest].
  repeat (match type of Hrow with
          | context [decide ?P] => destruct (decide P)
          | context [match ?l with [] => _ | _ :: _ => _ end] =>
              destruct l; [|apply Forall_cons in Hrest as [? Hrest]]
          end; try done);
    injection Hrow as <- <- <-;
    (split; [set_solver|]); (split; [done|]);
    first [ done
          | rewrite formatLabel_singleton, !LF_free_app;
            repeat (apply andb_true_intro; split); auto ].
Qed.

(** The lines of a Metric built from a key and a description that hold no
    line feed are three lines, none of them the [TYPE] line of the
    synthetic metric. *)
Lemma metric_lines_clean (entry : string * Value) (m : Metric) :
  LF_free entry.1 = true → LF_free (description entry.2) = true →
  follows_table ToLower entry m →
  Forall (λ l, LF_free l = true ∧ l ≠ "# TYPE varnish_active_vcl gauge")
    (metric_lines m).
Proof.
  intros Hkey Hdesc [Hval Hrow].
  apply table_row_LF_free in Hrow as (Hcat & Hname & Hlabels);
    [|by apply Split_LF_free].
  rewrite <- Hval in Hdesc.
  unfold metric_lines, help_line, type_line, sample_line, full_name.
  repeat constructor.
  - rewrite !LF_free_app, Hname, Hdesc.
    repeat (apply elem_of_cons in Hcat as [-> | Hcat]; [done|]).
    by apply elem_of_nil in Hcat.
  - rewrite !app_cons. discriminate.
  - rewrite !LF_free_app, Hname, type_of_flag_LF_free.
    repeat (apply elem_of_cons in Hcat as [-> | Hcat]; [done|]).
    by apply elem_of_nil in Hcat.
  - repeat (apply elem_of_cons in Hcat as [-> | Hcat];
            [rewrite !app_cons; discriminate|]).
    by apply elem_of_nil in Hcat.
  - rewrite !LF_free_app, Hname, Hlabels, format_int_LF_free.
    repeat (apply elem_of_cons in Hcat as [-> | Hcat]; [done|]).
    by apply elem_of_nil in Hcat.
  - rewrite !app_cons. discriminate.
Qed.

End OutputLines.

(** ** The closing block *)

Lemma active_vcl_block_lines (version : string) :
  active_vcl_block version = unlines (active_vcl_lines version).
Proof.
  unfold active_vcl_block, active_vcl_lines. rewrite !unlines_cons.
  change (unlines []) with "". by rewrite !app_assoc_s, app_empty_r.
Qed.

Lemma lower_byte_LF (c : ascii) :
  c ≠ "010"%char → GoStrings.lower_byte c ≠ "010"%char.
Proof.
  destruct c as [[] [] [] [] [] [] [] []]; vm_compute; congruence.
Qed.

Lemma ToLower_ascii_LF_free (s : string) :
  LF_free s = true → LF_free (GoStrings.ToLower_ascii s) = true.
Proof.
  induction s as [|c s IH]; [done|]. cbn [GoStrings.ToLower_ascii].
  rewrite !LF_free_cons. intros [Hc Hs]. split; [by apply lower_byte_LF | auto].
Qed.

Section ClosingBlock.
Variable ToLower : string → string.

Lemma metrics_lines_clean (entries : list (string * Value))
    (ms : list Metric) :
  (∀ s, LF_free s = true → LF_free (ToLower s) = true) →
  Forall (λ entry, LF_free entry.1 = true
                   ∧ LF_free (description entry.2) = true) entries →
  Forall2 (follows_table ToLower) entries ms →
  Forall (λ l, LF_free l = true ∧ l ≠ "# TYPE varnish_active_vcl gauge")
    (ms ≫= metric_lines).
Proof.
  intros HToLower Hentries Hall.
  induction Hall as [|entry m entries ms Hm _ IH]; [constructor|].
  apply Forall_cons in Hentries as [[Hkey Hdesc] Hentries].
  change ((m :: ms) ≫= metric_lines)
    with (metric_lines m ++ (ms ≫= metric_lines)).
  apply Forall_app. split; [|by apply IH].
  by apply (metric_lines_clean ToLower HToLower entry).
Qed.

(** C4, as amended.  The output ends with the block of the synthetic
    metric, whatever the keys are.  When no key, no description and not
    the given revision holds a line feed, the block occurs nowhere else in
    the output. *)
Theorem closing_block (obj : list (string * Value)) (rev text : string) :
  genMetrics ToLower obj rev = Done text →
  ∃ st, collect ToLower obj rev = Done st
        ∧ text = unlines (metrics st ≫= metric_lines)
                 +:+ active_vcl_block (activeVCL st)
        ∧ ((∀ s, LF_free s = true → LF_free (ToLower s) = true) →
           LF_free rev = true →
           Forall (λ entry, LF_free entry.1 = true
                            ∧ LF_free (description entry.2) = true) obj →
           ∀ X Y, text = X +:+ active_vcl_block (activeVCL st) +:+ Y →
                  X = unlines (metrics st ≫= metric_lines) ∧ Y = "").
Proof.
  intros Hgen. apply genMetrics_Done in Hgen as (st & Hrun & ->).
  exists st. split; [done|]. split; [done|].
  intros HToLower Hrev Hobj X Y Heq.
  apply collect_Done in Hrun as [Hact Hall].
  assert (Hversion : LF_free (activeVCL st) = true).
  { rewrite Hact. apply final_revision_LF_free; [done|].
    eapply Forall_impl; [exact Hobj|]. by intros entry [? _]. }
  assert (Hlines : Forall (λ l, LF_free l = true
                                ∧ l ≠ "# TYPE varnish_active_vcl gauge")
                     (metrics st ≫= metric_lines)).
  { apply (metrics_lines_clean (retained rev obj)); [done| |done].
    rewrite Forall_forall in Hobj. apply Forall_forall. intros entry Hin.
    apply Hobj. by apply (retained_subset rev obj). }
  rewrite active_vcl_block_lines in Heq. unfold active_vcl_lines in Heq.
  rewrite <- unlines_app in Heq. symmetry in Heq.
  apply closing_lines_once in Heq; [done|done|done|done| |done|].
  - by rewrite !LF_free_app, Hversion.
  - rewrite !app_cons. discriminate.
Qed.

End ClosingBlock.

Lemma closing_block_witness :
  let text := "# HELP varnish_main_uptime d" +:+ LF
              +:+ "# TYPE varnish_main_uptime counter" +:+ LF
              +:+ "varnish_main_uptime 42" +:+ LF
              +:+ active_vcl_block "" in
  genMetrics GoStrings.ToLower_ascii uptime_document "" = Done text
  ∧ ∀ X Y, text = X +:+ active_vcl_block "" +:+ Y → Y = "".
Proof.
  assert (Hgen : genMetrics GoStrings.ToLower_ascii uptime_document ""
                 = Done ("# HELP varnish_main_uptime d" +:+ LF
                         +:+ "# TYPE varnish_main_uptime counter" +:+ LF
                         +:+ "varnish_main_uptime 42" +:+ LF
                         +:+ active_vcl_block ""))
    by (vm_compute; reflexivity).
  split; [exact Hgen|].
  destruct (closing_block GoStrings.ToLower_ascii uptime_document "" _ Hgen)
    as (st & Hrun & _ & Honce).
  vm_compute in Hrun. injection Hrun as <-.
  intros X Y Heq.
  apply (Honce ToLower_ascii_LF_free eq_refl) in Heq as [_ HY]; [exact HY|].
  repeat constructor.
Defined.

(** C4, as stated, fails: a description can spell out the block, which then
    occurs twice in the output, once in the middle and once at the end. *)
Lemma closing_block_twice :
  genMetrics GoStrings.ToLower_ascii injected_document ""
  = Done (("# HELP varnish_main_uptime d" +:+ LF)
          +:+ active_vcl_block ""
          +:+ ("# end" +:+ LF +:+ "# TYPE varnish_main_uptime counter" +:+ LF
               +:+ "varnish_main_uptime 0" +:+ LF)
          +:+ active_vcl_block "").
Proof. vm_compute. reflexivity. Qed.

(** ** The pass, stretch by stretch *)

Lemma for_range_app {A S : Type} (body : S → A → go S) (l1 l2 : list A) (s : S) :
  for_range body (l1 ++ l2) s = for_range body l1 s ≫= for_range body l2.
Proof.
  revert s. induction l1 as [|x l1 IH]; intros s; [done|].
  cbn [for_range app]. destruct (body s x) as [s'|e]; [apply IH | done].
Qed.

Section Frame.
Variable ToLower : string → string.

(** The callback reads the active revision alone and only adds to the
  rest. *)
Lemma visit_extend (st : visitor) (entry : string * Value) :
visit ToLower st entry
= match visit ToLower (Visitor (activeVCL st) [] [] []) entry with
  | Done added => Done (extend st added)
  | Panics e => Panics e
  end.
Proof.
destruct st as [a ms pr lg]. destruct entry as [key val].
unfold visit, extend.
destruct (decide (key = "version")).
{ simpl. by rewrite !List.app_nil_r. }
destruct (GoStrings.Split key ".") as [|p [|s2 rest]].
1,2: simpl; by rewrite !List.app_nil_r.
cbn [length index lookup list_lookup mbind go_bind bind].
destruct (decide (S (S (length rest)) < 2)%nat); [lia|].
destruct (decide (p = "VBE")).
{ cbn [activeVCL fmt_Println].
  destruct (decide (a = "")); cbn [activeVCL set_activeVCL fmt_Println];
    (destruct (decide _); [simpl; by rewrite !List.app_nil_r|]);
    destruct rest as [|s3 [|s4 rest]]; simpl; by rewrite ?List.app_nil_r. }
repeat (destruct (decide (p = _));
        [ try (destruct rest as [|s3 rest]); simpl;
          by rewrite ?List.app_nil_r |]).
simpl. by rewrite !List.app_nil_r.
Qed.

Lemma extend_extend (st added more : visitor) :
extend (extend st added) more = extend st (extend added more).
Proof. unfold extend. simpl. by rewrite !List.app_assoc. Qed.

Lemma for_range_extend (obj : list (string * Value)) (st : visitor) :
for_range (visit ToLower) obj st
= match for_range (visit ToLower) obj (Visitor (activeVCL st) [] [] []) with
  | Done added => Done (extend st added)
  | Panics e => Panics e
  end.
Proof.
revert st. induction obj as [|entry obj IH]; intros st.
- destruct st. unfold extend. simpl. by rewrite !List.app_nil_r.
- cbn [for_range]. rewrite (visit_extend st).
  destruct (visit ToLower (Visitor (activeVCL st) [] [] []) entry)
    as [added|e]; [|done].
  cbn [bind]. rewrite (IH (extend st added)), (IH added).
  cbn [extend activeVCL].
  destruct (for_range _ obj _) as [more|e]; [|done].
  by rewrite extend_extend.
Qed.

End Frame.

Section Outcome.
Variable ToLower : string → string.

Lemma table_row_long_enough (key : string) :
recognized key = true →
is_Some (table_row ToLower (dot_path key)) ↔ long_enough key.
Proof.
unfold recognized, long_enough, segments_read, table_row.
generalize (dot_path key). intros path.
rewrite !andb_true_iff, !bool_decide_eq_true. intros [[_ Hlen] Hvoc].
destruct path as [|p [|s2 rest]]; [simpl in Hlen; lia..|].
cbn [hd length] in *. apply in_vocabulary in Hvoc.
repeat (destruct (decide (p = _)) as [->|?]; try done);
  try (exfalso; tauto);
  destruct rest as [|s3 [|s4 rest]]; cbn [length];
  (split; intros H; [try lia; by destruct H | try lia; by eexists]).
Qed.

(** How a step from a fresh state ends. *)
Lemma visit_fresh (a key : string) (val : Value) :
match visit ToLower (Visitor a [] [] []) (key, val) with
| Done added =>
    printed added = (if is_VBE_key key then [key] else [])
    ∧ logged added = (if unknown_key key then [(key, val)] else [])
| Panics e =>
    kept (adopt a key) key = true ∧ ¬ long_enough key
    ∧ e = IndexOutOfRange (length (dot_path key)) (length (dot_path key))
end.
Proof.
unfold visit, is_VBE_key, unknown_key, kept, adopt, revision_id, recognized,
  long_enough, segments_read, dot_path.
destruct (decide (key = "version")) as [->|Hv]; [done|].
rewrite (bool_decide_eq_true_2 (key ≠ "version")) by done.
generalize (GoStrings.Split key "."). intros splits.
destruct splits as [|p [|s2 rest]]; [done..|].
cbn [length hd index lookup list_lookup mbind go_bind bind].
destruct (decide (S (S (length rest)) < 2)%nat) as [Hlt|_]; [lia|].
rewrite (bool_decide_eq_true_2 (2 ≤ S (S (length rest)))%nat) by lia.
cbn [andb].
destruct (decide (p = "VBE")) as [->|HVBE].
{ rewrite (bool_decide_eq_true_2 (_ ∈ vocabulary))
    by (apply in_vocabulary; tauto).
  rewrite (bool_decide_eq_true_2 ("VBE" = "VBE")) by done.
  cbn [andb negb activeVCL fmt_Println].
  rewrite (bool_decide_eq_true_2 (is_Some (Some s2))) by done.
  destruct (decide (a = "")) as [Ha|Ha];
    cbn [activeVCL set_activeVCL fmt_Println];
    (destruct (decide _) as [Hne|Heq]; [done|]);
    apply dec_stable in Heq;
    rewrite (bool_decide_eq_true_2 (s2 = _)) by done;
    destruct rest as [|s3 [|s4 rest]]; cbn; try done;
    (split; [done|]); (split; [lia|done]). }
rewrite (bool_decide_eq_false_2 (p = "VBE")) by done.
rewrite andb_false_r.
rewrite (bool_decide_eq_false_2 (is_Some None)) by (by intros [? ?]).
repeat
  (match goal with
   | |- context [decide (p = ?lit)] =>
       destruct (decide (p = lit)) as [->|?];
       [ rewrite (bool_decide_eq_true_2 (_ ∈ vocabulary))
           by (apply in_vocabulary; tauto);
         try (destruct rest as [|s3 rest]); cbn; try done;
         (split; [done|]); (split; [lia|done])
       | ]
   end).
cbn. rewrite bool_decide_eq_false_2; [done|].
rewrite in_vocabulary. tauto.
Qed.

End Outcome.

Lemma kept_recognized (active key : string) :
  kept active key = true → recognized key = true.
Proof. unfold kept. by intros [? _]%andb_true_iff. Qed.

Lemma retained_recognized (active : string) (obj : list (string * Value)) :
  Forall (λ entry, recognized entry.1 = true) (retained active obj).
Proof.
  revert active. induction obj as [|[key val] obj IH]; intros active;
    [constructor|].
  cbn [retained]. apply Forall_app. split; [|apply IH].
  destruct (kept _ key) eqn:Hk; [|constructor].
  repeat constructor. by apply kept_recognized in Hk.
Qed.

Lemma unrecognized_adopt (active key : string) :
  recognized key = false → adopt active key = active.
Proof. intros H. unfold adopt, revision_id. by rewrite H. Qed.

Section Pass.
Variable ToLower : string → string.

Lemma retained_rows (active : string) (obj : list (string * Value)) :
Forall (λ entry, is_Some (table_row ToLower (dot_path entry.1)))
  (retained active obj)
↔ Forall (λ entry, long_enough entry.1) (retained active obj).
Proof.
pose proof (retained_recognized active obj) as Hrec.
induction Hrec as [|entry entries Hentry _ IH].
- split; constructor.
- rewrite !Forall_cons, IH. by rewrite table_row_long_enough.
Qed.

(** X1.  [genMetrics] returns a text exactly when every retained key has
  the segments the callback reads of it: four of a VBE key, two of a
  MAIN or MGT key, three of the others. *)
Theorem genMetrics_returns_iff (obj : list (string * Value)) (rev : string) :
(∃ text, genMetrics ToLower obj rev = Done text)
↔ Forall (λ entry, long_enough entry.1) (retained rev obj).
Proof.
rewrite <- retained_rows. split.
- intros [text Hgen]. apply genMetrics_Done in Hgen as (st & Hrun & _).
  apply collect_Done in Hrun as [_ Hall].
  induction Hall as [|entry m entries ms [_ Hrow] _ IH]; constructor;
    [by eexists | done].
- intros Hrows.
  destruct (for_range_completes ToLower obj (Visitor rev [] [] []) Hrows)
    as [st Hst].
  eexists. apply genMetrics_Done. by exists st.
Qed.

Lemma for_range_panics (obj : list (string * Value)) (st : visitor)
  (e : runtime_error) :
for_range (visit ToLower) obj st = Panics e →
∃ pre key val post,
  obj = pre ++ (key, val) :: post
  ∧ (∃ st', for_range (visit ToLower) pre st = Done st')
  ∧ kept (adopt (final_revision (activeVCL st) pre) key) key = true
  ∧ ¬ long_enough key
  ∧ e = IndexOutOfRange (length (dot_path key)) (length (dot_path key)).
Proof.
revert st. induction obj as [|[key val] obj IH]; intros st; [done|].
cbn [for_range]. rewrite visit_extend.
pose proof (visit_fresh ToLower (activeVCL st) key val) as Hfresh.
destruct (visit ToLower (Visitor (activeVCL st) [] [] []) (key, val))
  as [added|e'] eqn:Hv.
- cbn [bind]. intros Hrest.
  apply IH in Hrest as (pre & k & v & post & -> & [st' Hpre] & Hk & Hs & ->).
  pose proof Hv as Hact. apply visit_Done in Hact as [Hact _].
  cbn [activeVCL] in Hact.
  exists ((key, val) :: pre), k, v, post. split; [done|]. split.
  + exists st'. cbn [for_range]. rewrite visit_extend, Hv. exact Hpre.
  + unfold final_revision in *. cbn [fmap list_fmap foldl fst].
    cbn [extend activeVCL] in Hk. rewrite Hact in Hk. done.
- intros [= <-]. destruct Hfresh as (Hk & Hs & ->).
  exists [], key, val, obj. split; [done|]. split; [by eexists|]. done.
Qed.

End Pass.

Section PassFacts.
Variable ToLower : string → string.

Lemma genMetrics_panics_at (obj : list (string * Value)) (rev : string)
  (e : runtime_error) :
genMetrics ToLower obj rev = Panics e →
∃ pre key val post n,
  obj = pre ++ (key, val) :: post
  ∧ (∃ st, collect ToLower pre rev = Done st)
  ∧ kept (final_revision rev (pre ++ [(key, val)])) key = true
  ∧ n = length (dot_path key) ∧ (2 ≤ n ≤ 3)%nat
  ∧ (n < segments_read (hd "" (dot_path key)))%nat
  ∧ e = IndexOutOfRange n n.
Proof.
unfold genMetrics, collect.
destruct (for_range _ obj _) as [st|e'] eqn:Hrun; [done|].
intros [= ->].
apply for_range_panics in Hrun
  as (pre & key & val & post & -> & Hpre & Hk & Hshort & ->).
exists pre, key, val, post, (length (dot_path key)).
split; [done|]. split; [done|]. cbn [activeVCL] in Hk. split.
{ unfold final_revision in *. rewrite fmap_app, foldl_app. done. }
split; [done|].
unfold long_enough in Hshort.
assert (Hrec : recognized key = true) by (by eapply kept_recognized).
unfold recognized in Hrec.
rewrite !andb_true_iff, !bool_decide_eq_true in Hrec.
destruct Hrec as [[_ Hlen] _].
assert (segments_read (hd "" (dot_path key)) ≤ 4)%nat.
{ unfold segments_read. repeat (destruct (decide _)); lia. }
repeat split; lia.
Qed.

(** X2.  When [genMetrics] panics, it is at the first retained key with
  fewer segments than the callback reads: the keys before it have been
  visited without a panic, and the error is an index out of range [n]
  with length [n], where [n], the number of segments of that key, is 2 or
  3. *)
Theorem genMetrics_panic (obj : list (string * Value)) (rev : string)
  (e : runtime_error) :
genMetrics ToLower obj rev = Panics e →
∃ pre key val post n,
  obj = pre ++ (key, val) :: post
  ∧ (∃ st, collect ToLower pre rev = Done st)
  ∧ kept (final_revision rev (pre ++ [(key, val)])) key = true
  ∧ n = length (dot_path key) ∧ (2 ≤ n ≤ 3)%nat
  ∧ (n < segments_read (hd "" (dot_path key)))%nat
  ∧ e = IndexOutOfRange n n.
Proof. apply genMetrics_panics_at. Qed.

(** X3.  A panic at a key aborts the pass whatever follows the key. *)
Theorem panic_aborts_pass (obj more : list (string * Value)) (rev : string)
  (e : runtime_error) :
genMetrics ToLower obj rev = Panics e →
genMetrics ToLower (obj ++ more) rev = Panics e.
Proof.
unfold genMetrics, collect. rewrite for_range_app.
destruct (for_range _ obj _) as [st|e']; [done|]. by intros [= ->].
Qed.

Lemma same_outcome_genMetrics (obj1 obj2 : list (string * Value))
  (rev : string) :
same_outcome (collect ToLower obj1 rev) (collect ToLower obj2 rev) →
genMetrics ToLower obj1 rev = genMetrics ToLower obj2 rev.
Proof.
unfold genMetrics, same_outcome.
destruct (collect ToLower obj1 rev) as [s1|e1],
         (collect ToLower obj2 rev) as [s2|e2]; try done.
- intros [Ha Hm]. cbn. by rewrite Ha, Hm.
- by intros ->.
Qed.

Lemma filter_recognized_outcome (obj : list (string * Value)) (a : string) :
same_outcome
  (for_range (visit ToLower)
     (filter (λ entry, recognized entry.1 = true) obj) (Visitor a [] [] []))
  (for_range (visit ToLower) obj (Visitor a [] [] [])).
Proof.
revert a. induction obj as [|[key val] obj IH]; intros a; [done|].
rewrite filter_cons. cbn [fst].
destruct (decide (recognized key = true)) as [Hrec|Hrec].
- cbn [for_range].
  destruct (visit ToLower (Visitor a [] [] []) (key, val)) as [added|e];
    [|done].
  cbn [bind]. rewrite (for_range_extend ToLower _ added).
  rewrite (for_range_extend ToLower obj added).
  specialize (IH (activeVCL added)). unfold same_outcome in *.
  destruct (for_range _ (filter _ obj) _) as [s1|e1],
           (for_range _ obj _) as [s2|e2]; try done.
  destruct IH as [Ha Hm]. cbn. by rewrite Ha, Hm.
- apply not_true_is_false in Hrec.
  cbn [for_range].
  destruct (visit_completes ToLower (Visitor a [] [] []) key val)
    as [added Hadded].
  { unfold kept. by rewrite Hrec. }
  rewrite Hadded. cbn [bind].
  apply visit_Done in Hadded as [Hact Hstep]. cbn [activeVCL metrics] in *.
  rewrite unrecognized_adopt in Hact by done.
  destruct Hstep as [[Hk _] | [_ Hm]].
  { unfold kept in Hk. by rewrite Hrec in Hk. }
  rewrite (for_range_extend ToLower obj added), Hact.
  specialize (IH a). unfold same_outcome in *.
  destruct (for_range _ (filter _ obj) _) as [s1|e1],
           (for_range _ obj _) as [s2|e2]; try done.
  destruct IH as [Ha' Hm']. cbn. by rewrite Hm, Ha', Hm'.
Qed.

(** X4.  The key [version], the keys with fewer than two segments and the
  keys with a first segment outside the vocabulary have no part in the
  outcome: without them [genMetrics] returns the same text, or panics
  alike. *)
Theorem unrecognized_keys_invisible (obj : list (string * Value))
  (rev : string) :
genMetrics ToLower (filter (λ entry, recognized entry.1 = true) obj) rev
= genMetrics ToLower obj rev.
Proof. apply same_outcome_genMetrics, filter_recognized_outcome. Qed.

End PassFacts.

Lemma final_revision_empty_iff (obj : list (string * Value)) :
  final_revision "" obj = "" ↔ Forall adopts_nothing obj.
Proof.
  split; [|apply final_revision_unset].
  unfold final_revision. induction obj as [|[key val] obj IH]; [constructor|].
  cbn [fmap list_fmap foldl fst]. intros Hfin.
  destruct (decide (adopt "" key = "")) as [Ha|Ha].
  - rewrite Ha in Hfin. constructor; [|by apply IH].
    unfold adopts_nothing. cbn [fst]. unfold adopt in Ha.
    destruct (revision_id key) as [r|]; [|by left].
    destruct (decide ("" = "")); [|done]. right. by rewrite Ha.
  - fold (final_revision (adopt "" key) obj) in Hfin.
    by rewrite final_revision_set in Hfin.
Qed.

Section PassMore.
Variable ToLower : string → string.

(** X5.  With no active revision given, the version label of the closing
  block is empty exactly when no VBE key with a non-empty revision id has
  been visited. *)
Theorem label_empty_iff (obj : list (string * Value)) (text : string) :
genMetrics ToLower obj "" = Done text →
∃ st, collect ToLower obj "" = Done st
      ∧ text = unlines (metrics st ≫= metric_lines)
               +:+ active_vcl_block (activeVCL st)
      ∧ (activeVCL st = "" ↔ Forall adopts_nothing obj).
Proof.
intros Hgen. apply genMetrics_Done in Hgen as (st & Hrun & ->).
exists st. split; [done|]. split; [done|].
apply collect_Done in Hrun as [-> _]. apply final_revision_empty_iff.
Qed.

(** X6.  With an active revision given, the output for two objects put
  one after the other is the lines of the first, the lines of the
  second, and one closing block. *)
Theorem genMetrics_app (obj1 obj2 : list (string * Value))
  (rev text1 text2 : string) :
rev ≠ "" →
genMetrics ToLower obj1 rev = Done text1 →
genMetrics ToLower obj2 rev = Done text2 →
∃ body1 body2,
  text1 = body1 +:+ active_vcl_block rev
  ∧ text2 = body2 +:+ active_vcl_block rev
  ∧ genMetrics ToLower (obj1 ++ obj2) rev
    = Done (body1 +:+ body2 +:+ active_vcl_block rev).
Proof.
intros Hrev Hgen1 Hgen2.
apply genMetrics_Done in Hgen1 as (st1 & Hrun1 & ->).
apply genMetrics_Done in Hgen2 as (st2 & Hrun2 & ->).
assert (Ha1 : activeVCL st1 = rev).
{ pose proof Hrun1 as H. apply collect_Done in H as [-> _].
  by apply final_revision_set. }
assert (Ha2 : activeVCL st2 = rev).
{ pose proof Hrun2 as H. apply collect_Done in H as [-> _].
  by apply final_revision_set. }
rewrite Ha1, Ha2. eexists _, _. split; [done|]. split; [done|].
apply genMetrics_Done. exists (extend st1 st2). split.
- unfold collect in *. rewrite for_range_app, Hrun1. cbn [mbind go_bind bind].
  rewrite for_range_extend, Ha1, Hrun2. done.
- cbn [extend metrics activeVCL]. rewrite Ha2.
  by rewrite bind_app, unlines_app, app_assoc_s.
Qed.

Lemma for_range_traces (obj : list (string * Value)) (st st' : visitor) :
for_range (visit ToLower) obj st = Done st' →
printed st' = printed st ++ filter (λ key, is_VBE_key key = true) obj.*1
∧ logged st'
  = logged st ++ filter (λ entry, unknown_key entry.1 = true) obj.
Proof.
revert st. induction obj as [|[key val] obj IH]; intros st.
- intros [= <-]. by rewrite !List.app_nil_r.
- cbn [for_range]. rewrite visit_extend.
  pose proof (visit_fresh ToLower (activeVCL st) key val) as Hfresh.
  destruct (visit ToLower (Visitor (activeVCL st) [] [] []) (key, val))
    as [added|e]; [|done].
  cbn [bind]. intros Hrun. apply IH in Hrun as [-> ->].
  destruct Hfresh as [Hp Hl]. cbn [extend printed logged].
  rewrite Hp, Hl. cbn [fmap list_fmap fst]. rewrite !filter_cons. cbn [fst].
  split.
  + destruct (is_VBE_key key); destruct (decide _); try done;
      by rewrite <- ?List.app_assoc, ?List.app_nil_r.
  + destruct (unknown_key key); destruct (decide _); try done;
      by rewrite <- ?List.app_assoc, ?List.app_nil_r.
Qed.

(** X7.  A completed pass has written every VBE key to standard output, in
  visiting order, the keys of other revisions included; and it has logged
  the entries with two segments or more whose first segment is outside
  the vocabulary, and no other: [version] and the keys of one segment
  leave no trace. *)
Theorem pass_traces (obj : list (string * Value)) (rev : string)
  (st : visitor) :
collect ToLower obj rev = Done st →
printed st = filter (λ key, is_VBE_key key = true) obj.*1
∧ logged st = filter (λ entry, unknown_key entry.1 = true) obj.
Proof. intros Hrun. by apply for_range_traces in Hrun. Qed.

End PassMore.

(** ** The revision list, entry by entry *)

Lemma parseVCLList_loop_skip (skipped : list Value) (l : list Value) :
  Forall (λ v, ¬ is_active v) skipped →
  parseVCLList_loop (skipped ++ l) = parseVCLList_loop l.
Proof.
  induction 1 as [|v skipped Hv _ IH]; [done|].
  cbn [app parseVCLList_loop]. destruct (decide _) as [Heq|_]; [|done].
  destruct Hv. unfold is_active.
  destruct (GetStringBytes v "status") as [s|]; [|done]. cbn in Heq. by subst.
Qed.

Lemma parseVCLList_loop_found (l : list Value) (name : string) :
  parseVCLList_loop l = (name, None) →
  ∃ skipped record rest,
    l = skipped ++ record :: rest
    ∧ Forall (λ v, ¬ is_active v) skipped ∧ is_active record
    ∧ name = string_of_bytes (GetStringBytes record "name").
Proof.
  induction l as [|v l IH]; [done|]. cbn [parseVCLList_loop].
  destruct (decide _) as [Heq|Hne].
  - intros [= <-]. exists [], v, l. split; [done|]. split; [constructor|].
    split; [|done]. unfold is_active.
    destruct (GetStringBytes v "status") as [s|]; [|done]. cbn in Heq.
    by subst.
  - intros Hl. destruct (IH Hl) as (skipped & record & rest & -> & Hs & Hr & ->).
    exists (v :: skipped), record, rest. split; [done|]. split; [|done].
    constructor; [|done]. unfold is_active. intros Hv.
    rewrite Hv in Hne. done.
Qed.

Lemma parseVCLList_loop_error (l : list Value) (name : string) (err : error) :
  parseVCLList_loop l = (name, Some err) →
  name = "" ∧ err = ErrorsNew "No active ACL found"
  ∧ Forall (λ v, ¬ is_active v) l.
Proof.
  induction l as [|v l IH]; cbn [parseVCLList_loop].
  - intros [= <- <-]. by repeat split.
  - destruct (decide _) as [Heq|Hne]; [done|].
    intros Hl. destruct (IH Hl) as (-> & -> & Hall).
    repeat split. constructor; [|done]. unfold is_active. intros Hv.
    rewrite Hv in Hne. done.
Qed.

Section ResolverMore.
Variable Parse : string → Value + error.

Lemma parseVCLList_found (input : string) (header skipped rest : list Value)
  (record : Value) :
Parse input = inl (Array (header ++ skipped ++ record :: rest)) →
length header = 3%nat →
Forall (λ v, ¬ is_active v) skipped → is_active record →
parseVCLList Parse input
= Done (string_of_bytes (GetStringBytes record "name"), None).
Proof.
intros HP Hlen Hs Hr. unfold parseVCLList, slice_from. rewrite HP.
cbn [Value_Array].
destruct (decide _) as [_|Hn]; [|rewrite length_app in Hn; lia].
cbn [mbind go_bind bind]. rewrite drop_app_length' by done.
rewrite parseVCLList_loop_skip by done. cbn [parseVCLList_loop].
unfold is_active in Hr. rewrite Hr. cbn. by destruct (decide _).
Qed.

(** X8.  [parseVCLList] returns a name without an error exactly when the
  text decodes to an array whose first record with the status [active],
  the three leading entries not counted, exists; the name is then the
  [name] field of that record, or the empty string when the record has no
  such string field.  A leading entry is never read, whatever its
  status. *)
Theorem parseVCLList_first_active (input name : string) :
parseVCLList Parse input = Done (name, None)
↔ ∃ header skipped record rest,
    Parse input = inl (Array (header ++ skipped ++ record :: rest))
    ∧ length header = 3%nat
    ∧ Forall (λ v, ¬ is_active v) skipped ∧ is_active record
    ∧ name = string_of_bytes (GetStringBytes record "name").
Proof.
split.
- unfold parseVCLList, slice_from.
  destruct (Parse input) as [val|err]; [|done].
  destruct val as [| |arr| | | |]; try done. cbn [Value_Array].
  destruct (decide (3 ≤ length arr)%nat) as [Hlen|]; [|done].
  cbn [mbind go_bind bind]. intros [= Hloop].
  apply parseVCLList_loop_found in Hloop
    as (skipped & record & rest & Hdrop & Hs & Hr & ->).
  exists (take 3 arr), skipped, record, rest.
  rewrite <- Hdrop, take_drop. split; [done|].
  split; [by rewrite length_take; lia | done].
- intros (header & skipped & record & rest & HP & Hlen & Hs & Hr & ->).
  by apply (parseVCLList_found input header skipped rest).
Qed.

(** X9.  On every text that does not decode to an array of fewer than
  three entries [parseVCLList] returns; and when it returns an error, the
  name is empty, and the error is the decoder's, the one of
  [Value.Array], or, when no record after the three leading entries is
  active, [No active ACL found]. *)
Theorem parseVCLList_returns (input : string) :
(∀ arr, Parse input = inl (Array arr) → (3 ≤ length arr)%nat) →
∃ name err,
  parseVCLList Parse input = Done (name, err)
  ∧ ∀ e, err = Some e →
         name = ""
         ∧ (Parse input = inr e
            ∨ (∃ val, Parse input = inl val ∧ e = NotAnArray (type_of val)
                      ∧ ∀ arr, val ≠ Array arr)
            ∨ (∃ arr, Parse input = inl (Array arr)
                      ∧ Forall (λ v, ¬ is_active v) (drop 3 arr)
                      ∧ e = ErrorsNew "No active ACL found")).
Proof.
intros Hlong. unfold parseVCLList, slice_from.
destruct (Parse input) as [val|err] eqn:HP.
- destruct val as [| |arr| | | |];
    try (eexists _, _; split; [cbn; reflexivity|];
         intros e [= <-]; split; [done|]; right; left;
         eexists; by repeat split).
  cbn [Value_Array]. specialize (Hlong arr eq_refl).
  destruct (decide (3 ≤ length arr)%nat); [|done].
  cbn [mbind go_bind bind].
  destruct (parseVCLList_loop (drop 3 arr)) as [name err] eqn:Hloop.
  exists name, err. split; [done|]. intros e ->.
  apply parseVCLList_loop_error in Hloop as (-> & -> & Hall).
  split; [done|]. right. right. by exists arr.
- exists "", (Some err). split; [done|]. intros e [= <-]. split; [done|].
  by left.
Qed.

End ResolverMore.

Lemma parseVCLList_returns_witness :
  (∀ arr, sample_Parse (vcl_list_text "available" "cold") = inl (Array arr) →
          (3 ≤ length arr)%nat)
  ∧ ∃ name err,
      parseVCLList sample_Parse (vcl_list_text "available" "cold")
      = Done (name, err)
      ∧ ∀ e, err = Some e → name = "".
Proof.
  assert (Hlong : ∀ arr, sample_Parse (vcl_list_text "available" "cold")
                         = inl (Array arr) → (3 ≤ length arr)%nat).
  { intros arr. vm_compute. intros [= <-]. lia. }
  split; [exact Hlong|].
  destruct (parseVCLList_returns sample_Parse _ Hlong) as (name & err & Hr & He).
  exists name, err. split; [exact Hr|]. intros e Herr.
  by destruct (He e Herr).
Defined.

(** ** The collection cycle *)

Section Cycle.
Variable ToLower : string → string.
Variable Parse : string → Value + error.
Variable Run : string → list string → string * option error.

Lemma collectStats_calls : (collectStats Parse Run).2 = [varnishstat_call].
Proof.
unfold collectStats, execute.
destruct (Run "varnishstat" ["-j"; "-t"; "0"]) as [out [e|]]; [done|].
by destruct (Parse out).
Qed.

Lemma listVCL_calls (noAdmin : bool) :
(listVCL Parse Run noAdmin).2 = if noAdmin then [] else [varnishadm_call].
Proof.
unfold listVCL, execute. destruct noAdmin; [done|].
by destruct (Run "varnishadm" ["vcl.list"; "-j"]) as [out [e|]].
Qed.

(** X10.  A cycle runs [varnishadm vcl.list -j] first, unless the listing
  is switched off, and [varnishstat -j -t 0] after it, and that only when
  the listing has given a revision without an error or a panic; it runs
  nothing else. *)
Theorem commands_run (noAdmin : bool) :
(collectMetrics ToLower Parse Run noAdmin).2
= (if noAdmin then [] else [varnishadm_call])
  ++ (if listed (listVCL Parse Run noAdmin).1 then [varnishstat_call]
      else []).
Proof.
unfold collectMetrics.
pose proof (listVCL_calls noAdmin) as Hl.
pose proof collectStats_calls as Hs.
destruct (listVCL Parse Run noAdmin) as [r calls1]. cbn [fst snd] in *.
subst calls1.
destruct r as [[name [err|]]|e]; cbn [listed snd]; try by rewrite app_nil_r.
destruct (collectStats Parse Run) as [[stats|err] calls2]; cbn [snd] in *;
  by subst.
Qed.

(** X11.  A cycle that returns an error returns the empty text with it;
  one that returns no error returns a text that ends with the closing
  block. *)
Theorem error_or_text (noAdmin : bool) (text : string) (err : option error) :
(collectMetrics ToLower Parse Run noAdmin).1 = Done (text, err) →
match err with
| Some _ => text = ""
| None => ∃ body version, text = body +:+ active_vcl_block version
end.
Proof.
unfold collectMetrics.
destruct (listVCL Parse Run noAdmin) as [[[name [e|]]|e] calls1];
  cbn [fst]; [by intros [= <- <-]| |done].
destruct (collectStats Parse Run) as [[stats|e] calls2]; cbn [fst];
  [|by intros [= <- <-]].
destruct (genMetrics ToLower stats name) as [out|e] eqn:Hgen; [|done].
cbn. intros [= <- <-].
apply genMetrics_Done in Hgen as (st & _ & ->). by eexists _, _.
Qed.


(** X13.  When the listing gives a non-empty name, the version label of
  the closing block is that name. *)
Theorem listed_revision_label (name text : string) :
name ≠ "" →
(listVCL Parse Run false).1 = Done (name, None) →
(collectMetrics ToLower Parse Run false).1 = Done (text, None) →
∃ body, text = body +:+ active_vcl_block name.
Proof.
intros Hname. unfold collectMetrics.
destruct (listVCL Parse Run false) as [r calls1]. cbn [fst].
intros ->.
destruct (collectStats Parse Run) as [[stats|e] calls2]; cbn [fst]; [|done].
destruct (genMetrics ToLower stats name) as [out|e] eqn:Hgen; [|done].
cbn. intros [= <-].
apply genMetrics_Done in Hgen as (st & Hrun & ->).
apply collect_Done in Hrun as [-> _].
rewrite final_revision_set by done. by eexists.
Qed.

(** X14.  An active record without a [name] string makes the cycle end as
  it does with the listing switched off: the revision is left to the
  first VBE key. *)
Theorem nameless_revision (out : string) (header skipped rest : list Value)
  (record : Value) :
Run "varnishadm" ["vcl.list"; "-j"] = (out, None) →
Parse out = inl (Array (header ++ skipped ++ record :: rest)) →
length header = 3%nat →
Forall (λ v, ¬ is_active v) skipped → is_active record →
GetStringBytes record "name" = None →
(collectMetrics ToLower Parse Run false).1
= (collectMetrics ToLower Parse Run true).1.
Proof.
intros HR HP Hlen Hs Hr Hname.
unfold collectMetrics, listVCL, execute. rewrite HR.
rewrite (parseVCLList_found Parse out header skipped rest record) by done.
rewrite Hname. cbn [string_of_bytes default mret go_ret].
by destruct (collectStats Parse Run) as [[stats|e] calls2].
Qed.

(** X15.  With the listing switched off, the version label of the closing
  block is the first non-empty revision id of a VBE key of the counters
  that [varnishstat] has printed. *)
Theorem unlisted_revision_label (out : string)
  (pre post : list (string * Value)) (key : string) (val : Value)
  (r : string) (result : go (string * option error)) :
Run "varnishstat" ["-j"; "-t"; "0"] = (out, None) →
Parse out = inl (Object (pre ++ (key, val) :: post)) →
Forall adopts_nothing pre → revision_id key = Some r → r ≠ "" →
(collectMetrics ToLower Parse Run true).1 = result →
(∃ e, result = Panics e)
∨ ∃ body, result = Done (body +:+ active_vcl_block r, None).
Proof.
intros HR HP Hpre Hkey Hr <-.
unfold collectMetrics, listVCL, collectStats, execute.
rewrite HR, HP. cbn [Value_Object mret go_ret fst].
destruct (genMetrics ToLower _ "") as [text|e] eqn:Hgen; [|left; by eexists].
right. apply genMetrics_Done in Hgen as (st & Hrun & ->).
apply collect_Done in Hrun as [-> _].
rewrite (final_revision_adopted pre post key val r) by done.
by eexists.
Qed.

End Cycle.

(** ** Values, printed and read *)

Lemma digits_value_string_of_uint (acc : Z) (d : Decimal.uint) :
  digits_value acc (NilEmpty.string_of_uint d) = Some (uint_value acc d).
Proof.
  revert acc. induction d; intros acc; cbn [NilEmpty.string_of_uint uint_value];
    [done|..]; cbn [digits_value]; apply IHd.
Qed.

Lemma uint_value_of_lu (d d' : Decimal.uint) :
  uint_value (Z.of_N (DecimalPos.Unsigned.of_lu d')) d
  = Z.of_N (DecimalPos.Unsigned.of_lu (Decimal.revapp d d')).
Proof.
  revert d'. induction d; intros d'; cbn [uint_value Decimal.revapp];
    [done|..]; rewrite <- IHd; f_equal;
    cbn [DecimalPos.Unsigned.of_lu]; lia.
Qed.

Lemma uint_value_of_uint (d : Decimal.uint) :
  uint_value 0 d = Z.of_uint d.
Proof.
  unfold Z.of_uint. rewrite DecimalPos.Unsigned.of_uint_alt.
  apply (uint_value_of_lu d Decimal.Nil).
Qed.

Lemma ParseInt64BestEffort_unsigned (c : ascii) (r : string) :
  c ≠ "-"%char →
  ParseInt64BestEffort (String c r)
  = match digits_value 0 (String c r) with
    | Some d => if (min_int64 <=? d)%Z && (d <=? max_int64)%Z then d else 0%Z
    | None => 0%Z
    end.
Proof.
  intros Hc. unfold ParseInt64BestEffort.
  destruct c as [[] [] [] [] [] [] [] []]; try reflexivity. done.
Qed.

Lemma ParseInt64BestEffort_signed (c : ascii) (r : string) :
  ParseInt64BestEffort (String "-" (String c r))
  = match digits_value 0 (String c r) with
    | Some d =>
        if (min_int64 <=? - d)%Z && (- d <=? max_int64)%Z then (- d)%Z else 0%Z
    | None => 0%Z
    end.
Proof. reflexivity. Qed.

Lemma string_of_uint_head (d : Decimal.uint) :
  d ≠ Decimal.Nil →
  ∃ c r, NilEmpty.string_of_uint d = String c r ∧ c ≠ "-"%char.
Proof. destruct d; [done|..]; intros _; by eexists _, _. Qed.

Lemma in_int64 (m : Z) :
  (if (min_int64 <=? m)%Z && (m <=? max_int64)%Z then m else 0%Z)
  = if decide (min_int64 ≤ m ≤ max_int64)%Z then m else 0%Z.
Proof.
  destruct (decide _) as [[? ?]|Hn].
  - by rewrite (proj2 (Z.leb_le _ _)), (proj2 (Z.leb_le _ _)) by done.
  - destruct (Z.leb_spec min_int64 m); [|done].
    destruct (Z.leb_spec m max_int64); [|done]. lia.
Qed.

Lemma ParseInt64BestEffort_format_int (n : Z) :
  ParseInt64BestEffort (format_int n)
  = if decide (min_int64 ≤ n ≤ max_int64)%Z then n else 0%Z.
Proof.
  pose proof (DecimalZ.of_to n) as Hn. unfold format_int.
  destruct (Z.to_int n) as [d|d] eqn:Hd; cbn [Z.of_int] in Hn;
    rewrite <- uint_value_of_uint in Hn;
    unfold NilZero.string_of_int, NilZero.string_of_uint.
  - assert (Hnil : d = Decimal.Nil ∨ d ≠ Decimal.Nil)
      by (destruct d; [by left | by right..]).
    destruct Hnil as [->|Hnil].
    { cbn in Hn. subst n. reflexivity. }
    destruct (string_of_uint_head d Hnil) as (c & r & Hs & Hc).
    replace (match d with Decimal.Nil => "0" | _ => NilEmpty.string_of_uint d end)
      with (NilEmpty.string_of_uint d) by (by destruct d).
    rewrite Hs, ParseInt64BestEffort_unsigned by done.
    rewrite <- Hs, digits_value_string_of_uint, Hn. apply in_int64.
  - assert (Hnil : d ≠ Decimal.Nil).
    { intros ->. unfold Z.to_int in Hd. destruct n; try done. }
    destruct (string_of_uint_head d Hnil) as (c & r & Hs & Hc).
    replace (match d with Decimal.Nil => "0" | _ => NilEmpty.string_of_uint d end)
      with (NilEmpty.string_of_uint d) by (by destruct d).
    rewrite Hs, ParseInt64BestEffort_signed.
    rewrite <- Hs, digits_value_string_of_uint, Hn. apply in_int64.
Qed.

(** X16.  A counter whose [value] is written as the decimal text of a
    number that fits an int64 is rendered with that same text; when the
    number does not fit, it is rendered as [0]. *)
Theorem sample_value_round_trip (m : Metric) (n : Z) :
  Get (Value_ m) "value" = Some (Number (format_int n)) →
  sample_line m
  = full_name m +:+ formatLabel (Labels m) +:+ " "
    +:+ (if decide (min_int64 ≤ n ≤ max_int64)%Z then format_int n else "0").
Proof.
  intros Hvalue. unfold sample_line, GetInt. rewrite Hvalue.
  rewrite ParseInt64BestEffort_format_int. by destruct (decide _).
Qed.

Lemma sample_value_round_trip_witness :
  let m := newMetric "main" "uptime" ∅ (Object [("value", Number "-42")]) in
  Get (Value_ m) "value" = Some (Number (format_int (-42)))
  ∧ sample_line m = "varnish_main_uptime -42".
Proof.
  split; [reflexivity|].
  rewrite (sample_value_round_trip
             (newMetric "main" "uptime" ∅ (Object [("value", Number "-42")]))
             (-42)%Z eq_refl).
  destruct (decide _) as [_|Hn]; [reflexivity|].
  exfalso. apply Hn. unfold min_int64, max_int64. lia.
Defined.

(** ** The extras at work *)

Lemma genMetrics_panic_witness :
  let obj := [("MAIN.uptime", Null); ("VBE.a.be1", Null); ("MGT.uptime", Null)] in
  genMetrics GoStrings.ToLower_ascii obj "" = Panics (IndexOutOfRange 3 3)
  ∧ ∃ pre key val post n,
      obj = pre ++ (key, val) :: post
      ∧ (∃ st, collect GoStrings.ToLower_ascii pre "" = Done st)
      ∧ kept (final_revision "" (pre ++ [(key, val)])) key = true
      ∧ n = length (dot_path key) ∧ (2 ≤ n ≤ 3)%nat
      ∧ (n < segments_read (hd "" (dot_path key)))%nat
      ∧ IndexOutOfRange 3 3 = IndexOutOfRange n n.
Proof.
  split; [reflexivity|].
  apply (genMetrics_panic GoStrings.ToLower_ascii
           [("MAIN.uptime", Null); ("VBE.a.be1", Null); ("MGT.uptime", Null)] "").
  reflexivity.
Defined.

Lemma panic_aborts_pass_witness :
  genMetrics GoStrings.ToLower_ascii [("SMA.s0", Null)] "boot"
  = Panics (IndexOutOfRange 2 2)
  ∧ genMetrics GoStrings.ToLower_ascii
      ([("SMA.s0", Null)] ++ uptime_document) "boot"
    = Panics (IndexOutOfRange 2 2).
Proof.
  split; [reflexivity|].
  apply (panic_aborts_pass GoStrings.ToLower_ascii). reflexivity.
Defined.

Lemma label_empty_iff_witness :
  ∃ text st,
    genMetrics GoStrings.ToLower_ascii uptime_document "" = Done text
    ∧ collect GoStrings.ToLower_ascii uptime_document "" = Done st
    ∧ text = unlines (metrics st ≫= metric_lines)
             +:+ active_vcl_block (activeVCL st)
    ∧ (activeVCL st = "" ↔ Forall adopts_nothing uptime_document).
Proof.
  eexists.
  destruct (label_empty_iff GoStrings.ToLower_ascii uptime_document _ eq_refl)
    as (st & Hrun & Htext & Hiff).
  exists st. split; [reflexivity|]. split; [exact Hrun|].
  split; [exact Htext | exact Hiff].
Defined.

Lemma genMetrics_app_witness :
  ∃ body1 body2,
    genMetrics GoStrings.ToLower_ascii uptime_document "boot"
    = Done (body1 +:+ active_vcl_block "boot")
    ∧ genMetrics GoStrings.ToLower_ascii two_revisions "boot"
      = Done (body2 +:+ active_vcl_block "boot")
    ∧ genMetrics GoStrings.ToLower_ascii (uptime_document ++ two_revisions) "boot"
      = Done (body1 +:+ body2 +:+ active_vcl_block "boot").
Proof.
  assert (Hrev : "boot" ≠ "") by done.
  destruct (genMetrics_app GoStrings.ToLower_ascii uptime_document
              two_revisions "boot" _ _ Hrev eq_refl eq_refl)
    as (body1 & body2 & H1 & H2 & H12).
  exists body1, body2. split; [|split; [|exact H12]].
  - rewrite <- H1. reflexivity.
  - rewrite <- H2. reflexivity.
Defined.

Lemma pass_traces_witness :
  let obj := [ ("version", Null); ("uptime", Null); ("FOO.bar", Null) ]
             ++ two_revisions in
  ∃ st, collect GoStrings.ToLower_ascii obj "" = Done st
        ∧ printed st = ["VBE.a.be1.conn"; "VBE.b.be2.conn"]
        ∧ logged st = [("FOO.bar", Null)].
Proof.
  eexists. split; [vm_compute; reflexivity|].
  destruct (pass_traces GoStrings.ToLower_ascii
              ([ ("version", Null); ("uptime", Null); ("FOO.bar", Null) ]
               ++ two_revisions) "" _ eq_refl) as [Hp Hl].
  split; [exact Hp | exact Hl].
Defined.


Lemma error_or_text_witness :
  ∃ text,
    (collectMetrics GoStrings.ToLower_ascii sample_decoder good_Run false).1
    = Done (text, None)
    ∧ ∃ body version, text = body +:+ active_vcl_block version.
Proof.
  eexists. split; [vm_compute; reflexivity|].
  apply (error_or_text GoStrings.ToLower_ascii sample_decoder good_Run false
           _ None).
  vm_compute. reflexivity.
Defined.


Lemma listed_revision_label_witness :
  ∃ text,
    (collectMetrics GoStrings.ToLower_ascii sample_decoder good_Run false).1
    = Done (text, None)
    ∧ ∃ body, text = body +:+ active_vcl_block "boot".
Proof.
  eexists. split; [vm_compute; reflexivity|].
  apply (listed_revision_label GoStrings.ToLower_ascii sample_decoder good_Run
           "boot"); [done | reflexivity | vm_compute; reflexivity].
Defined.

Lemma nameless_revision_witness :
  (collectMetrics GoStrings.ToLower_ascii sample_decoder nameless_Run false).1
  = (collectMetrics GoStrings.ToLower_ascii sample_decoder nameless_Run true).1.
Proof.
  apply (nameless_revision GoStrings.ToLower_ascii sample_decoder nameless_Run
           nameless_list_text [Number "0"; Array []; Number "1"] [] []
           (Object [("status", String_ "active")]));
    [reflexivity | reflexivity | reflexivity | constructor | reflexivity
    | reflexivity].
Defined.

Lemma unlisted_revision_label_witness :
  ∃ body,
    (collectMetrics GoStrings.ToLower_ascii sample_decoder good_Run true).1
    = Done (body +:+ active_vcl_block "boot", None).
Proof.
  destruct (unlisted_revision_label GoStrings.ToLower_ascii sample_decoder
              good_Run counters_text [] [] "VBE.boot.be1.conn" Null "boot" _
              eq_refl eq_refl (List.Forall_nil _) eq_refl ltac:(done) eq_refl)
    as [[e He] | [body Hbody]].
  - vm_compute in He. discriminate He.
  - exists body. exact Hbody.
Defined.
